(** * colr/preset.py: the [Preset] class of colr

    A shallow embedding of [Preset] (fore / back / style arguments for a
    [Colr]) and the properties of its methods.

    - Python values are the inductive type [value].
    - [Preset] instances live in a store ([heap]); methods take references,
      so that "the instance is not changed" is a statement about the store.
    - Exceptions and the calls made to the [colr.colr] module (the [codes]
      table and the [Colr] class) are threaded through the monad [M]:
      every call to a collaborator is appended to a [trace]. *)

From Stdlib Require Import ZArith Ascii String List Bool.
From stdpp Require Import base option list gmap strings fin_maps.

Local Open Scope string_scope.
Local Open Scope Z_scope.

(** ** Python values *)

(** The values a slot holds: [None], a name or hex string, a number, or a
    tuple such as an RGB triple. All of them are hashable. *)
#[warnings="-register-all"]
Inductive value : Type :=
| VNone
| VStr (s : string)
| VInt (n : Z)
| VTuple (vs : list value).

(** [x is None] *)
Definition is_None (v : value) : bool :=
  match v with VNone => true | _ => false end.

(** [bool(x)]: the truth value of an object. *)
Definition truthy (v : value) : bool :=
  match v with
  | VNone => false
  | VStr s => negb (String.eqb s "")
  | VInt n => negb (n =? 0)
  | VTuple vs => match vs with [] => false | _ => true end
  end.

(** [v == w]. Tuples compare element by element. *)
Fixpoint value_eqb (v w : value) {struct v} : bool :=
  match v, w with
  | VNone, VNone => true
  | VStr a, VStr b => String.eqb a b
  | VInt a, VInt b => a =? b
  | VTuple l, VTuple m =>
      (fix all2 (l m : list value) {struct l} : bool :=
         match l, m with
         | [], [] => true
         | x :: l', y :: m' => value_eqb x y && all2 l' m'
         | _, _ => false
         end) l m
  | _, _ => false
  end.

(** [x in seq] *)
Definition py_in (v : value) (seq : list value) : bool :=
  existsb (value_eqb v) seq.

(** ** Exceptions and outcomes *)

Inductive exn : Type :=
| TypeError
| ValueError
| InvalidColr (v : value)
| InvalidStyle (v : value).

Inductive outcome (A : Type) : Type :=
| Ok (a : A)
| Raise (e : exn).
Arguments Ok {A} a.
Arguments Raise {A} e.

(** [v < w]. Strings order by code point, numbers numerically; a tuple
    compares at the first position where the two differ (by [==]), and by
    length if there is none. Any other pair of kinds is a [TypeError]. *)
Fixpoint value_lt (v w : value) {struct v} : outcome bool :=
  match v, w with
  | VStr a, VStr b => Ok (String.ltb a b)
  | VInt a, VInt b => Ok (a <? b)
  | VTuple l, VTuple m =>
      (fix first_diff (l m : list value) {struct l} : outcome bool :=
         match l, m with
         | x :: l', y :: m' =>
             if value_eqb x y then first_diff l' m' else value_lt x y
         | [], _ :: _ => Ok true
         | _, [] => Ok false
         end) l m
  | _, _ => Raise TypeError
  end.

(** ** The store and the monad of method calls *)

(** An instance of [Preset]: its three [__slots__]. *)
Record Preset : Type := mkPreset { fore : value; back : value; style : value }.

(** A reference to an instance in the store. *)
Definition ref : Type := nat.

(** What a caller may pass where a [Preset] is expected. *)
Inductive obj : Type :=
| OPreset (r : ref)
| OValue (v : value).

(** [isinstance(o, Preset)] *)
Definition isinstance_Preset (o : obj) : bool :=
  match o with OPreset _ => true | OValue _ => false end.

(** Calls into [colr.colr]. *)
Inductive event : Type :=
| CodesGet (codetype key : value)         (* codes[codetype].get(key, None) *)
| ColrNew (text fg bg st : value).        (* Colr(text, fore=, back=, style=) *)

Record state : Type := mkState { heap : list Preset; trace : list event }.

Definition M (A : Type) : Type := state -> outcome A * state.

Definition ret {A} (a : A) : M A := fun st => (Ok a, st).
Definition raise {A} (e : exn) : M A := fun st => (Raise e, st).
Definition bind {A B} (m : M A) (k : A -> M B) : M B :=
  fun st => match m st with
            | (Ok a, st') => k a st'
            | (Raise e, st') => (Raise e, st')
            end.
Definition lift {A} (o : outcome A) : M A := fun st => (o, st).

Notation "x <- m ;; k" := (bind m (fun x => k))
  (at level 100, m at next level, right associativity).

(** Reading an instance. A reference held by a running program is always
    live, so the [None] branch has no Python counterpart; the theorems
    below assume the references they are given are allocated. *)
Definition deref (r : ref) : M Preset :=
  fun st => match heap st !! r with
            | Some p => (Ok p, st)
            | None => (Raise TypeError, st)
            end.

(** Allocating a fresh instance at the end of the store. *)
Definition alloc (p : Preset) : M ref :=
  fun st => (Ok (length (heap st)), mkState (heap st ++ [p]) (trace st)).

Definition emit (ev : event) : M unit :=
  fun st => (Ok tt, mkState (heap st) (trace st ++ [ev])).

(** [getattr(self, name, default)] on a [Preset] instance. *)
Definition getattr (self : ref) (name default : value) : M value :=
  match name with
  | VStr s =>
      p <- deref self ;;
      ret (if String.eqb s "fore" then fore p
           else if String.eqb s "back" then back p
           else if String.eqb s "style" then style p
           else default)
  | _ => raise TypeError
  end.

(** [''.join(parts)] *)
Fixpoint str_join (parts : list value) : outcome string :=
  match parts with
  | [] => Ok ""
  | VStr s :: rest =>
      match str_join rest with
      | Ok t => Ok (s ++ t)
      | Raise e => Raise e
      end
  | _ :: _ => Raise TypeError
  end.

(** [d.update(e)] on dictionaries with string keys: the entries of [e]
    win. *)
Definition dict_update (d e : gmap string value) : gmap string value := e ∪ d.

(** [kwargs.get(name)] for a parameter whose default is [None]. *)
Definition kwarg (kwargs : gmap string value) (name : string) : value :=
  default VNone (kwargs !! name).

(** ** A small instance of the collaborators

    Enough of [colr.colr] to run the methods on concrete inputs: a table
    with a few basic names, and a [Colr] that accepts the names of the
    table, numbers from 0 to 255 and RGB triples. *)

Definition esc (body : string) : string :=
  String "027"%char ("[" ++ body ++ "m").

Definition sample_codes (codetype key : value) : option string :=
  match codetype, key with
  | VStr ct, VStr name =>
      if String.eqb ct "fore" then
        if String.eqb name "red" then Some (esc "31")
        else if String.eqb name "blue" then Some (esc "34")
        else if String.eqb name "white" then Some (esc "37")
        else None
      else if String.eqb ct "back" then
        if String.eqb name "red" then Some (esc "41")
        else if String.eqb name "blue" then Some (esc "44")
        else if String.eqb name "white" then Some (esc "47")
        else None
      else if String.eqb ct "style" then
        if String.eqb name "bold" then Some (esc "1")
        else if String.eqb name "underline" then Some (esc "4")
        else None
      else None
  | _, _ => None
  end.

Definition byte_range (n : Z) : bool := (0 <=? n) && (n <=? 255).

(** The escape code of one argument of [Colr], [""] for [None]. *)
Definition sample_escape (codetype : string) (v : value) : outcome string :=
  match v with
  | VNone => Ok ""
  | _ =>
      match sample_codes (VStr codetype) v with
      | Some frag => Ok frag
      | None =>
          if String.eqb codetype "style" then Raise (InvalidStyle v)
          else
            match v with
            | VInt n =>
                if byte_range n then Ok (esc "ext") else Raise (InvalidColr v)
            | VTuple [VInt r; VInt g; VInt b] =>
                if byte_range r && byte_range g && byte_range b
                then Ok (esc "rgb") else Raise (InvalidColr v)
            | _ => Raise (InvalidColr v)
            end
      end
  end.

Definition sample_text (text : value) : string :=
  match text with VStr s => s | _ => "" end.

(** [Colr(text, fore, back, style)], the instance being its rendered
    string: the codes, the text, and a reset when both are present. *)
Definition sample_Colr (text fg bg st : value) : outcome string :=
  match sample_escape "fore" fg with
  | Raise e => Raise e
  | Ok cf =>
      match sample_escape "back" bg with
      | Raise e => Raise e
      | Ok cb =>
          match sample_escape "style" st with
          | Raise e => Raise e
          | Ok cs =>
              let cds := cs ++ cf ++ cb in
              let txt := sample_text text in
              Ok (if String.eqb cds "" || String.eqb txt "" then cds ++ txt
                  else cds ++ txt ++ esc "0")
          end
      end
  end.

Definition sample_str (c : string) : string := c.

Definition sample_hash (v : value) : Z :=
  match v with
  | VTuple vs => Z.of_nat (length vs)
  | _ => 0
  end.

(** The empty store. *)
Definition st0 : state := mkState [] [].

(** [Preset('red', style='bold')] and [Preset(back='white')]. *)
Definition st_warn : state :=
  mkState [mkPreset (VStr "red") VNone (VStr "bold");
           mkPreset VNone (VStr "white") VNone] [].

(** [Preset(fore='red')] and [Preset(fore='blue')]. *)
Definition st_red_blue : state :=
  mkState [mkPreset (VStr "red") VNone VNone;
           mkPreset (VStr "blue") VNone VNone] [].

(** Two instances of [Preset('red', None, 'bold')]. *)
Definition st_twins : state :=
  mkState [mkPreset (VStr "red") VNone (VStr "bold");
           mkPreset (VStr "red") VNone (VStr "bold")] [].

(** [Preset(fore='', back=0, style=())]: every slot falsy, none [None]. *)
Definition st_falsy : state :=
  mkState [mkPreset (VStr "") (VInt 0) (VTuple []);
           mkPreset (VStr "red") VNone VNone] [].

(** [Preset('red', style='bold')] and [Preset()]. *)
Definition st_blank : state :=
  mkState [mkPreset (VStr "red") VNone (VStr "bold");
           mkPreset VNone VNone VNone] [].

(** [Preset(fore='red')], [Preset(back='white')] and
    [Preset('blue', style='bold')]. *)
Definition st_three : state :=
  mkState [mkPreset (VStr "red") VNone VNone;
           mkPreset VNone (VStr "white") VNone;
           mkPreset (VStr "blue") VNone (VStr "bold")] [].

(** [Preset('red', 'nope', 'bold')]: a background that is no color. *)
Definition st_nope : state :=
  mkState [mkPreset (VStr "red") (VStr "nope") (VStr "bold")] [].

(** ** The class *)

Section Preset.

#[local] Unset Default Proof Using.

(** *** Collaborators from [colr.colr] *)

(** [codes]: the table of basic escape codes; [colr_codes codetype key] is
    [codes[codetype].get(key)], for the three keys [codes] has. *)
Variable colr_codes : value -> value -> option string.

(** The class [Colr]: its constructor, which validates its arguments, and
    [str] on its instances. *)
Variable ColrObj : Type.
Variable Colr : value -> value -> value -> value -> outcome ColrObj.
Variable Colr_str : ColrObj -> string.

(** The builtin [hash]. *)
Variable py_hash : value -> Z.

Definition codes_get (codetype key : value) : M value :=
  _ <- emit (CodesGet codetype key) ;;
  ret (match colr_codes codetype key with
       | Some frag => VStr frag
       | None => VNone
       end).

Definition Colr_new (text fg bg st : value) : M ColrObj :=
  _ <- emit (ColrNew text fg bg st) ;;
  lift (Colr text fg bg st).

(** [Colr] called with a dictionary of keyword arguments. *)
Definition Colr_kwargs (kwargs : gmap string value) : M ColrObj :=
  if bool_decide (dom kwargs ⊆ ({[ "text"; "fore"; "back"; "style" ]} : gset string))
  then Colr_new (kwarg kwargs "text") (kwarg kwargs "fore")
                (kwarg kwargs "back") (kwarg kwargs "style")
  else raise TypeError.

(** *** The methods of [Preset] *)

(** [Preset(fore, back, style)] *)
Definition __init__ (fore_ back_ style_ : value) : M ref :=
  alloc (mkPreset fore_ back_ style_).

(** [Preset] called with a dictionary of keyword arguments. *)
Definition Preset_kwargs (d : gmap string value) : M ref :=
  if bool_decide (dom d ⊆ ({[ "fore"; "back"; "style" ]} : gset string))
  then __init__ (kwarg d "fore") (kwarg d "back") (kwarg d "style")
  else raise TypeError.

Definition __call__ (self : ref) (text fore_ back_ style_ : value) : M ColrObj :=
  p <- deref self ;;
  Colr_new text
    (if is_None fore_ then fore p else fore_)
    (if is_None back_ then back p else back_)
    (if is_None style_ then style p else style_).

Definition __eq__ (self : ref) (other : obj) : M bool :=
  match other with
  | OValue _ => raise TypeError
  | OPreset o =>
      p <- deref self ;;
      q <- deref o ;;
      ret (value_eqb (fore p) (fore q) &&
           value_eqb (back p) (back q) &&
           value_eqb (style p) (style q))
  end.

Definition __hash__ (self : ref) : M Z :=
  p <- deref self ;;
  ret (py_hash (VTuple [fore p; back p; style p])).

Definition __lt__ (self : ref) (other : obj) : M bool :=
  match other with
  | OValue _ => raise TypeError
  | OPreset o =>
      p <- deref self ;;
      q <- deref o ;;
      lift (value_lt (VTuple [fore p; back p; style p])
                     (VTuple [fore q; back q; style q]))
  end.

(** [self != other]: the default [__ne__] inverts what [__eq__] returns. *)
Definition __ne__ (self : ref) (other : obj) : M bool :=
  b <- __eq__ self other ;;
  ret (negb b).

(** The comparisons that [functools.total_ordering] derives from [__lt__]:
    [a > b] is [not a < b and a != b], [a <= b] is [a < b or a == b] and
    [a >= b] is [not a < b]. *)
Definition __gt__ (self : ref) (other : obj) : M bool :=
  op_result <- __lt__ self other ;;
  if negb op_result then __ne__ self other else ret false.

Definition __le__ (self : ref) (other : obj) : M bool :=
  op_result <- __lt__ self other ;;
  if op_result then ret true else __eq__ self other.

Definition __ge__ (self : ref) (other : obj) : M bool :=
  op_result <- __lt__ self other ;;
  ret (negb op_result).

Definition as_dict (self : ref) : M (gmap string value) :=
  p <- deref self ;;
  let d : gmap string value := ∅ in
  let d := if negb (is_None (fore p)) then <["fore" := fore p]> d else d in
  let d := if negb (is_None (back p)) then <["back" := back p]> d else d in
  let d := if negb (is_None (style p)) then <["style" := style p]> d else d in
  ret d.

Definition codetypes : list value := [VStr "fore"; VStr "back"; VStr "style"].

Definition code (self : ref) (codetype default : value) : M value :=
  if negb (py_in codetype codetypes) then raise ValueError
  else
    val <- getattr self codetype VNone ;;
    if is_None val then ret default
    else
      fast <- codes_get codetype val ;;
      if truthy fast then ret fast
      else
        match codetype with
        | VStr name =>
            c <- Colr_kwargs {[ name := val ]} ;;
            ret (VStr (Colr_str c))
        | _ => raise TypeError
        end.

(** The list comprehension of [codes]:
    [[self.code(s) for s in names if getattr(self, s, None) is not None]] *)
Fixpoint codes_comprehension (self : ref) (names : list value) : M (list value) :=
  match names with
  | [] => ret []
  | s :: rest =>
      a <- getattr self s VNone ;;
      if negb (is_None a)
      then c <- code self s VNone ;;
           cs <- codes_comprehension self rest ;;
           ret (c :: cs)
      else codes_comprehension self rest
  end.

Definition codes (self : ref) : M string :=
  cs <- codes_comprehension self codetypes ;;
  lift (str_join cs).

Definition merge (self styleobj : ref) (fore_ back_ style_ : value) : M ref :=
  d <- as_dict self ;;
  d' <- as_dict styleobj ;;
  let d := dict_update d d' in
  args <- __init__ fore_ back_ style_ ;;
  d' <- as_dict args ;;
  let d := dict_update d d' in
  Preset_kwargs d.


(** *** Vocabulary of the statements *)

(** The slot of an axis, by name. *)
Definition slot (p : Preset) (axis : string) : value :=
  if String.eqb axis "fore" then fore p
  else if String.eqb axis "back" then back p
  else if String.eqb axis "style" then style p
  else VNone.

Definition axes : list string := ["fore"; "back"; "style"].

(** An argument list of [Colr] in which only [axis] is set. *)
Definition only (axis name : string) (val : value) : value :=
  if String.eqb axis name then val else VNone.

(** One layer over another: the upper value where there is one. *)
Definition layer (upper lower : value) : value :=
  match upper with VNone => lower | _ => upper end.

(** The state after further calls to the collaborators. *)
Definition logged (st : state) (evs : list event) : state :=
  mkState (heap st) (trace st ++ evs).

(** The dictionary of the slots that are set. *)
Definition set_slots (p : Preset) : gmap string value :=
  let d : gmap string value := ∅ in
  let d := match fore p with VNone => d | v => <["fore" := v]> d end in
  let d := match back p with VNone => d | v => <["back" := v]> d end in
  let d := match style p with VNone => d | v => <["style" := v]> d end in
  d.

(** What the colorizer makes of one axis value alone, as a string. *)
Definition render_axis (axis : string) (val : value) : outcome value :=
  match Colr VNone (only axis "fore" val) (only axis "back" val)
             (only axis "style" val) with
  | Ok c => Ok (VStr (Colr_str c))
  | Raise e => Raise e
  end.

Definition render_event (axis : string) (val : value) : event :=
  ColrNew VNone (only axis "fore" val) (only axis "back" val)
          (only axis "style" val).

(** The fragments of the table [codes] are escape codes: none of them is
    the empty string. *)
Definition escape_fragments : Prop :=
  forall codetype key, colr_codes codetype key <> Some "".

(** ResolveCode as the specification words it: the default for an absent
    slot, the fragment of the table when the value is found there, the
    colorizer otherwise. *)
Definition ResolveCode (p : Preset) (axis : string) (default : value) : M value :=
  fun st =>
    let val := slot p axis in
    match val with
    | VNone => (Ok default, st)
    | _ =>
        match colr_codes (VStr axis) val with
        | Some frag => (Ok (VStr frag), logged st [CodesGet (VStr axis) val])
        | None =>
            (render_axis axis val,
             logged st [CodesGet (VStr axis) val; render_event axis val])
        end
    end.

(** What [code] does with a slot value that is set: the outcome, and the
    calls made to the collaborators. *)
Definition resolved (axis : string) (val : value) : outcome value * list event :=
  let slow := (render_axis axis val,
               [CodesGet (VStr axis) val; render_event axis val]) in
  match colr_codes (VStr axis) val with
  | Some frag =>
      if String.eqb frag "" then slow
      else (Ok (VStr frag), [CodesGet (VStr axis) val])
  | None => slow
  end.

(** An axis value the colorizer rejects: the slot is set, the table has no
    non-empty fragment for it, and [Colr] with that axis alone raises [e]. *)
Definition invalid (p : Preset) (axis : string) (e : exn) : Prop :=
  axis ∈ axes /\ slot p axis <> VNone /\
  (colr_codes (VStr axis) (slot p axis) = None \/
   colr_codes (VStr axis) (slot p axis) = Some "") /\
  render_axis axis (slot p axis) = Raise e.

(** The axes of a preset that are set, in the order fore, back, style. *)
Definition set_axes (p : Preset) : list string :=
  List.filter (fun axis => negb (is_None (slot p axis))) axes.

(** The text of a string value. *)
Definition text_of (v : value) : string :=
  match v with VStr s => s | _ => "" end.

(** ResolveAllCodes as the specification words it: ResolveCode with no
    default on each axis that is set, in order, concatenated. *)
Fixpoint resolve_each (self : ref) (l : list string) : M (list string) :=
  match l with
  | [] => ret []
  | axis :: rest =>
      v <- code self (VStr axis) VNone ;;
      parts <- resolve_each self rest ;;
      ret (text_of v :: parts)
  end.

Definition ResolveAllCodes (self : ref) (p : Preset) : M string :=
  parts <- resolve_each self (set_axes p) ;;
  ret (fold_right String.append "" parts).

(** The lexicographic order of triples: the first component in which the
    two differ decides. *)
Definition lex_triple_lt (a b : value * value * value) : outcome bool :=
  let '(a1, a2, a3) := a in
  let '(b1, b2, b3) := b in
  if negb (value_eqb a1 b1) then value_lt a1 b1
  else if negb (value_eqb a2 b2) then value_lt a2 b2
  else if negb (value_eqb a3 b3) then value_lt a3 b3
  else Ok false.

Definition triple (p : Preset) : value * value * value :=
  (fore p, back p, style p).

(** [p == q] on the slots. *)
Definition Preset_eqb (p q : Preset) : bool :=
  value_eqb (fore p) (fore q) && value_eqb (back p) (back q) &&
  value_eqb (style p) (style q).

(** The first axis, in the order fore, back, style, in which two presets
    differ. *)
Definition first_diff (p q : Preset) : option string :=
  List.find (fun axis => negb (value_eqb (slot p axis) (slot q axis))) axes.

(** Two values of one kind that [<] orders. *)
Definition comparable (v w : value) : Prop :=
  match v, w with
  | VStr _, VStr _ => True
  | VInt _, VInt _ => True
  | _, _ => False
  end.

(** [Preset()], with no axis set. *)
Definition empty_Preset : Preset := mkPreset VNone VNone VNone.

(** One preset laid over another, axis by axis. *)
Definition layer_Preset (upper lower : Preset) : Preset :=
  mkPreset (layer (fore upper) (fore lower))
           (layer (back upper) (back lower))
           (layer (style upper) (style lower)).

(** The fragment the table holds for the slot of an axis. *)
Definition fragment (p : Preset) (axis : string) : string :=
  default "" (colr_codes (VStr axis) (slot p axis)).

(** The lookup [code] makes in the table for the slot of an axis. *)
Definition lookup_event (p : Preset) (axis : string) : event :=
  CodesGet (VStr axis) (slot p axis).

(** The calls [code] makes to the collaborators for the slot of an axis. *)
Definition calls (p : Preset) (axis : string) : list event :=
  (resolved axis (slot p axis)).2.

(** ** Properties *)

(** *** Values *)

Section value_induction.
Variable P : value -> Prop.
Hypothesis P_none : P VNone.
Hypothesis P_str : forall s, P (VStr s).
Hypothesis P_int : forall n, P (VInt n).
Hypothesis P_tuple : forall vs, Forall P vs -> P (VTuple vs).

Fixpoint value_nested_ind (v : value) : P v :=
  match v with
  | VNone => P_none
  | VStr s => P_str s
  | VInt n => P_int n
  | VTuple vs =>
      P_tuple vs
        ((fix each (l : list value) : Forall P l :=
            match l with
            | [] => List.Forall_nil P
            | x :: l' => List.Forall_cons P x l' (value_nested_ind x) (each l')
            end) vs)
  end.
End value_induction.

Lemma value_eqb_eq (v w : value) : value_eqb v w = true <-> v = w.
Proof.
  revert w. induction v as [| s | n | vs IH] using value_nested_ind;
    intros [| s' | n' | ws]; simpl; try (split; [discriminate | congruence]).
  - done.
  - rewrite String.eqb_eq. split; congruence.
  - rewrite Z.eqb_eq. split; congruence.
  - revert ws. induction IH as [| x l Hx _ IHl]; intros [| y m];
      try (split; [discriminate | congruence]).
    + done.
    + rewrite andb_true_iff, Hx, IHl. split.
      * intros [-> E]. congruence.
      * intros E. by injection E as -> ->.
Qed.

Lemma value_eqb_refl (v : value) : value_eqb v v = true.
Proof. by apply value_eqb_eq. Qed.

Lemma is_None_true (v : value) : is_None v = true <-> v = VNone.
Proof. destruct v; simpl; split; congruence. Qed.

Lemma is_None_false (v : value) : is_None v = false <-> v <> VNone.
Proof. destruct v; simpl; split; congruence. Qed.

Lemma layer_is_None (upper lower : value) :
  layer upper lower = if is_None upper then lower else upper.
Proof. by destruct upper. Qed.

Lemma axes_cases (axis : string) :
  axis ∈ axes <-> axis = "fore" \/ axis = "back" \/ axis = "style".
Proof. unfold axes. rewrite !elem_of_cons, elem_of_nil. tauto. Qed.

Lemma py_in_codetypes (c : value) :
  py_in c codetypes = true <-> exists axis, axis ∈ axes /\ c = VStr axis.
Proof.
  unfold py_in, codetypes. simpl.
  rewrite !orb_true_iff, !value_eqb_eq. split.
  - intros [-> | [-> | [-> | ?]]]; [| | | done];
      eexists; (split; [apply axes_cases | reflexivity]); auto.
  - intros (axis & Hin & ->). apply axes_cases in Hin.
    destruct Hin as [-> | [-> | ->]]; auto.
Qed.

(** *** Running the primitives *)

Lemma deref_live st r p :
  heap st !! r = Some p -> deref r st = (Ok p, st).
Proof. unfold deref. by intros ->. Qed.

Lemma getattr_slot st self p axis d :
  heap st !! self = Some p -> axis ∈ axes ->
  getattr self (VStr axis) d st = (Ok (slot p axis), st).
Proof.
  intros Hp Hax. unfold getattr, bind. rewrite (deref_live _ _ _ Hp).
  apply axes_cases in Hax. by destruct Hax as [-> | [-> | ->]].
Qed.

Lemma Colr_kwargs_only st axis val :
  axis ∈ axes ->
  Colr_kwargs {[ axis := val ]} st =
    (Colr VNone (only axis "fore" val) (only axis "back" val)
          (only axis "style" val),
     logged st [render_event axis val]).
Proof.
  intros Hax. unfold Colr_kwargs.
  rewrite bool_decide_eq_true_2.
  2: { rewrite dom_singleton_L. intros k Hk.
       apply elem_of_singleton in Hk as ->.
       rewrite !elem_of_union, !elem_of_singleton.
       apply axes_cases in Hax. destruct Hax as [-> | [-> | ->]]; auto. }
  unfold kwarg. apply axes_cases in Hax.
  by destruct Hax as [-> | [-> | ->]].
Qed.

(** [code] on a valid axis name, in one equation. *)
Lemma code_unfold st self p axis d :
  heap st !! self = Some p -> axis ∈ axes ->
  code self (VStr axis) d st =
    let val := slot p axis in
    if is_None val then (Ok d, st)
    else
      let slow := (render_axis axis val,
                   logged st [CodesGet (VStr axis) val; render_event axis val]) in
      match colr_codes (VStr axis) val with
      | Some frag =>
          if String.eqb frag "" then slow
          else (Ok (VStr frag), logged st [CodesGet (VStr axis) val])
      | None => slow
      end.
Proof.
  intros Hp Hax. unfold code.
  assert (py_in (VStr axis) codetypes = true) as ->
    by (apply py_in_codetypes; eauto).
  cbn [negb]. unfold bind at 1.
  rewrite (getattr_slot _ _ _ _ _ Hp Hax). simpl.
  destruct (is_None (slot p axis)); [done |].
  unfold bind, codes_get, emit, ret. simpl.
  fold (logged st [CodesGet (VStr axis) (slot p axis)]).
  destruct (colr_codes (VStr axis) (slot p axis)) as [frag |]; simpl.
  - destruct (String.eqb frag ""); simpl; [| done].
    rewrite Colr_kwargs_only by done. unfold render_axis, logged; simpl.
    rewrite <- app_assoc. simpl. by destruct (Colr _ _ _ _).
  - rewrite Colr_kwargs_only by done. unfold render_axis, logged; simpl.
    rewrite <- app_assoc. simpl. by destruct (Colr _ _ _ _).
Qed.

Lemma code_set st self p axis d :
  heap st !! self = Some p -> axis ∈ axes -> slot p axis <> VNone ->
  code self (VStr axis) d st =
    ((resolved axis (slot p axis)).1, logged st (resolved axis (slot p axis)).2).
Proof.
  intros Hp Hax Hset. rewrite (code_unfold _ _ _ _ _ Hp Hax). cbv zeta.
  apply is_None_false in Hset. rewrite Hset. unfold resolved.
  destruct (colr_codes (VStr axis) (slot p axis)) as [frag |]; [| done].
  by destruct (String.eqb frag "").
Qed.

Lemma code_unset st self p axis d :
  heap st !! self = Some p -> axis ∈ axes -> slot p axis = VNone ->
  code self (VStr axis) d st = (Ok d, st).
Proof.
  intros Hp Hax Hnone. rewrite (code_unfold _ _ _ _ _ Hp Hax). cbv zeta.
  by rewrite Hnone.
Qed.

(** A slot that is set resolves to a string or to an exception, never to
    any other kind of value. *)
Lemma resolved_str axis val v :
  (resolved axis val).1 = Ok v -> exists s, v = VStr s.
Proof.
  unfold resolved, render_axis.
  destruct (colr_codes (VStr axis) val) as [frag |]; simpl.
  - destruct (String.eqb frag ""); simpl.
    + destruct (Colr _ _ _ _); [| discriminate]. intros [= <-]. eauto.
    + intros [= <-]. eauto.
  - destruct (Colr _ _ _ _); [| discriminate]. intros [= <-]. eauto.
Qed.

(** The first call [code] makes for a slot that is set is the lookup in
    the table. *)
Lemma resolved_first_event axis val :
  exists evs, (resolved axis val).2 = CodesGet (VStr axis) val :: evs.
Proof.
  unfold resolved.
  destruct (colr_codes (VStr axis) val) as [frag |]; simpl; [| eauto].
  destruct (String.eqb frag ""); simpl; eauto.
Qed.


(** *** Resolving one code *)

(** C2. The fragments of the table being escape codes, none of them
    empty: on a valid axis [code] returns the default when the slot is
    [None]; when the slot's value is found in the table it returns the
    table's fragment as it is, after the lookup alone, the colorizer not
    being called; otherwise it calls the colorizer with only that axis set
    and returns what it renders, or raises what it raises. This is
    ResolveCode as the specification words it. *)
Theorem code_resolves st self p axis default :
  escape_fragments ->
  heap st !! self = Some p -> axis ∈ axes ->
  let val := slot p axis in
  (val = VNone -> code self (VStr axis) default st = (Ok default, st)) /\
  (forall frag,
     val <> VNone -> colr_codes (VStr axis) val = Some frag ->
     code self (VStr axis) default st =
       (Ok (VStr frag), logged st [CodesGet (VStr axis) val])) /\
  (val <> VNone -> colr_codes (VStr axis) val = None ->
   code self (VStr axis) default st =
     (render_axis axis val,
      logged st [CodesGet (VStr axis) val; render_event axis val])) /\
  code self (VStr axis) default st = ResolveCode p axis default st.
Proof.
  intros Hfull Hp Hax val. subst val.
  split; [| split; [| split]].
  - intros Hnone. by apply (code_unset _ _ p).
  - intros frag Hset Hfound.
    rewrite (code_set _ _ _ _ _ Hp Hax Hset). unfold resolved.
    rewrite Hfound.
    destruct (String.eqb_spec frag "") as [-> | _]; [| done].
    by apply Hfull in Hfound.
  - intros Hset Hmiss.
    rewrite (code_set _ _ _ _ _ Hp Hax Hset). unfold resolved.
    by rewrite Hmiss.
  - rewrite (code_unfold _ _ _ _ _ Hp Hax). cbv zeta. unfold ResolveCode.
    destruct (slot p axis) eqn:Hval; simpl; try done;
      (destruct (colr_codes _ _) as [frag |] eqn:Hfound; [| done];
       destruct (String.eqb_spec frag "") as [-> | _]; [| done];
       by apply Hfull in Hfound).
Qed.

(** When no fragment of the table is empty, [code] is ResolveCode as the
    specification words it. *)
Lemma code_ResolveCode st self p axis default :
  escape_fragments ->
  heap st !! self = Some p -> axis ∈ axes ->
  code self (VStr axis) default st = ResolveCode p axis default st.
Proof.
  intros Hfull Hp Hax. rewrite (code_unfold _ _ _ _ _ Hp Hax). cbv zeta.
  unfold ResolveCode.
  destruct (slot p axis) eqn:Hval; simpl; try done;
    (destruct (colr_codes _ _) as [frag |] eqn:Hfound; [| done];
     destruct (String.eqb_spec frag "") as [-> | _]; [| done];
     by apply Hfull in Hfound).
Qed.

(** C7. For a [codetype] that is none of ['fore'], ['back'], ['style'],
    [code] raises [ValueError] and leaves the state as it was: nothing is
    looked up and nothing is rendered. *)
Theorem code_bad_axis st self codetype default :
  codetype ∉ codetypes ->
  code self codetype default st = (Raise ValueError, st).
Proof.
  intros Hout. unfold code.
  destruct (py_in codetype codetypes) eqn:Hin; [| done].
  exfalso. apply Hout. apply py_in_codetypes in Hin as (axis & Hax & ->).
  unfold codetypes. apply axes_cases in Hax.
  rewrite !elem_of_cons. destruct Hax as [-> | [-> | ->]]; auto.
Qed.

(** *** Comparison and hashing *)

(** C5. Given anything that is not a [Preset], [__eq__] and [__lt__]
    raise [TypeError] instead of returning a boolean. *)
Theorem compare_not_a_Preset st self other :
  isinstance_Preset other = false ->
  __eq__ self other st = (Raise TypeError, st) /\
  __lt__ self other st = (Raise TypeError, st).
Proof. by destruct other. Qed.

Lemma lt_triples (a1 a2 a3 b1 b2 b3 : value) :
  value_lt (VTuple [a1; a2; a3]) (VTuple [b1; b2; b3]) =
  lex_triple_lt (a1, a2, a3) (b1, b2, b3).
Proof.
  unfold lex_triple_lt. simpl.
  destruct (value_eqb a1 b1); simpl; [| done].
  destruct (value_eqb a2 b2); simpl; [| done].
  by destruct (value_eqb a3 b3).
Qed.

Lemma eq_slots (p q : Preset) :
  value_eqb (fore p) (fore q) && value_eqb (back p) (back q) &&
    value_eqb (style p) (style q) = true <->
  fore p = fore q /\ back p = back q /\ style p = style q.
Proof.
  rewrite !andb_true_iff, !value_eqb_eq.
  split; [intros [[? ?] ?] | intros (? & ? & ?)]; auto.
Qed.

(** C4. Between two [Preset]s, [__eq__] returns a boolean that is true
    exactly when the three slots are equal pairwise, [None] being equal to
    [None]; and [__lt__] is the lexicographic order of the triples
    (fore, back, style), the first slot in which the two differ deciding. *)
Theorem compare_Presets st self other p q :
  heap st !! self = Some p -> heap st !! other = Some q ->
  (exists b, __eq__ self (OPreset other) st = (Ok b, st) /\
             (b = true <->
              fore p = fore q /\ back p = back q /\ style p = style q)) /\
  __lt__ self (OPreset other) st = (lex_triple_lt (triple p) (triple q), st).
Proof.
  intros Hp Hq. unfold __eq__, __lt__, bind.
  rewrite (deref_live _ _ _ Hp), (deref_live _ _ _ Hq). split.
  - eexists. split; [reflexivity |]. apply eq_slots.
  - unfold lift, triple. by rewrite lt_triples.
Qed.

(** C6. Two [Preset]s with equal triples have the same hash, and so do two
    that [__eq__] finds equal. *)
Theorem hash_consistent st self other p q :
  heap st !! self = Some p -> heap st !! other = Some q ->
  (triple p = triple q -> __hash__ self st = __hash__ other st) /\
  (__eq__ self (OPreset other) st = (Ok true, st) ->
   exists h, __hash__ self st = (Ok h, st) /\ __hash__ other st = (Ok h, st)).
Proof.
  intros Hp Hq. unfold __hash__, __eq__, bind.
  rewrite (deref_live _ _ _ Hp), (deref_live _ _ _ Hq). unfold ret. split.
  - unfold triple. by intros [= -> -> ->].
  - intros [= Heq]. apply eq_slots in Heq as (-> & -> & ->). eauto.
Qed.

(** *** Calling a preset *)

Lemma call_unfold st self p text fore_ back_ style_ :
  heap st !! self = Some p ->
  __call__ self text fore_ back_ style_ st =
    (Colr text (layer fore_ (fore p)) (layer back_ (back p))
          (layer style_ (style p)),
     logged st [ColrNew text (layer fore_ (fore p)) (layer back_ (back p))
                        (layer style_ (style p))]).
Proof.
  intros Hp. unfold __call__, bind. rewrite (deref_live _ _ _ Hp).
  by rewrite !layer_is_None.
Qed.

(** C9. A call with overrides passes each override in place of the
    preset's own value, leaves the store as it was, and a following call
    without overrides passes the preset's own three values. *)
Theorem call_overrides_transient st self p text fore_ back_ style_ text' :
  heap st !! self = Some p ->
  exists st1,
    __call__ self text fore_ back_ style_ st =
      (Colr text (layer fore_ (fore p)) (layer back_ (back p))
            (layer style_ (style p)), st1) /\
    heap st1 = heap st /\
    heap st1 !! self = Some p /\
    __call__ self text' VNone VNone VNone st1 =
      (Colr text' (fore p) (back p) (style p),
       logged st1 [ColrNew text' (fore p) (back p) (style p)]).
Proof.
  intros Hp. eexists. split; [by apply call_unfold |].
  split; [done |]. split; [done |].
  by rewrite (call_unfold _ _ p).
Qed.


(** *** The dictionary of a preset and merging *)

Lemma as_dict_unfold st self p :
  heap st !! self = Some p -> as_dict self st = (Ok (set_slots p), st).
Proof.
  intros Hp. unfold as_dict, bind. rewrite (deref_live _ _ _ Hp).
  unfold set_slots. destruct p as [f b s]; simpl.
  by destruct f, b, s.
Qed.

Lemma set_slots_lookup (p : Preset) (axis : string) :
  axis ∈ axes ->
  set_slots p !! axis =
    if is_None (slot p axis) then None else Some (slot p axis).
Proof.
  intros Hax. apply axes_cases in Hax. unfold set_slots.
  destruct p as [f b s]; simpl.
  destruct Hax as [-> | [-> | ->]]; destruct f, b, s; reflexivity.
Qed.

Lemma set_slots_dom (p : Preset) :
  dom (set_slots p) ⊆ ({[ "fore"; "back"; "style" ]} : gset string).
Proof.
  intros k Hk. apply elem_of_dom in Hk as [v Hv].
  rewrite !elem_of_union, !elem_of_singleton.
  destruct (decide (k = "fore")) as [| Hf]; [auto |].
  destruct (decide (k = "back")) as [| Hb]; [auto |].
  destruct (decide (k = "style")) as [| Hs]; [auto |].
  exfalso. revert Hv. unfold set_slots.
  destruct (fore p), (back p), (style p);
    rewrite ?lookup_insert_ne by done; by rewrite lookup_empty.
Qed.

Lemma kwarg_set_slots (p : Preset) (axis : string) :
  axis ∈ axes -> kwarg (set_slots p) axis = slot p axis.
Proof.
  intros Hax. unfold kwarg. rewrite set_slots_lookup by done.
  by destruct (slot p axis).
Qed.

(** Updating with the dictionary of a preset overwrites the axes that
    preset sets, and only those. *)
Lemma kwarg_update (d : gmap string value) (p : Preset) (axis : string) :
  axis ∈ axes ->
  kwarg (dict_update d (set_slots p)) axis = layer (slot p axis) (kwarg d axis).
Proof.
  intros Hax. unfold kwarg, dict_update.
  rewrite lookup_union, set_slots_lookup by done.
  destruct (slot p axis); simpl; by destruct (d !! axis).
Qed.

Lemma axes_fore : "fore" ∈ axes.
Proof. apply axes_cases. auto. Qed.
Lemma axes_back : "back" ∈ axes.
Proof. apply axes_cases. auto. Qed.
Lemma axes_style : "style" ∈ axes.
Proof. apply axes_cases. auto. Qed.

Lemma lookup_second_new {A} (l : list A) (x y : A) :
  (l ++ [x; y])%list !! S (length l) = Some y.
Proof.
  rewrite lookup_app_r by lia.
  by replace (S (length l) - length l)%nat with 1%nat by lia.
Qed.

(** The merged preset: layer upon layer, axis by axis. *)
Lemma merge_unfold st self other ps po fore_ back_ style_ :
  heap st !! self = Some ps -> heap st !! other = Some po ->
  merge self other fore_ back_ style_ st =
    (Ok (S (length (heap st))),
     mkState (heap st ++
                [mkPreset fore_ back_ style_;
                 mkPreset (layer fore_ (layer (fore po) (fore ps)))
                          (layer back_ (layer (back po) (back ps)))
                          (layer style_ (layer (style po) (style ps)))])
             (trace st)).
Proof.
  intros Hs Ho. unfold merge. unfold bind at 1.
  rewrite (as_dict_unfold _ _ _ Hs). unfold bind at 1.
  rewrite (as_dict_unfold _ _ _ Ho). unfold bind at 1.
  unfold __init__ at 1, alloc at 1.
  set (args := mkPreset fore_ back_ style_).
  set (st1 := mkState (heap st ++ [args]) (trace st)).
  assert (heap st1 !! length (heap st) = Some args) as Hargs
    by (subst st1; simpl; by rewrite list_lookup_middle).
  unfold bind. rewrite (as_dict_unfold _ _ _ Hargs).
  unfold Preset_kwargs. rewrite bool_decide_eq_true_2.
  2: { unfold dict_update. rewrite !dom_union_L.
       intros k Hk.
       apply elem_of_union in Hk as [Hk | Hk];
         [| apply elem_of_union in Hk as [Hk | Hk]];
         eapply set_slots_dom; exact Hk. }
  unfold __init__, alloc.
  rewrite !kwarg_update, !kwarg_set_slots
    by (apply axes_fore || apply axes_back || apply axes_style).
  subst st1. simpl. rewrite <- app_assoc. simpl.
  by rewrite length_app, Nat.add_1_r.
Qed.

(** C1. [merge] returns a new instance whose every axis is the explicit
    argument if one is given, else the value of [styleobj] if it sets the
    axis, else the value of [self]; the instances already in the store,
    [self] and [styleobj] among them, are left as they were, and no
    collaborator is called. *)
Theorem merge_layers st self other ps po fore_ back_ style_ :
  heap st !! self = Some ps -> heap st !! other = Some po ->
  exists r st',
    merge self other fore_ back_ style_ st = (Ok r, st') /\
    heap st !! r = None /\
    heap st' !! r =
      Some (mkPreset (layer fore_ (layer (fore po) (fore ps)))
                     (layer back_ (layer (back po) (back ps)))
                     (layer style_ (layer (style po) (style ps)))) /\
    heap st' !! self = Some ps /\
    heap st' !! other = Some po /\
    (forall r' q, heap st !! r' = Some q -> heap st' !! r' = Some q) /\
    trace st' = trace st.
Proof.
  intros Hs Ho. do 2 eexists.
  split; [by apply merge_unfold |]. simpl.
  split; [apply lookup_ge_None; lia |].
  split; [apply lookup_second_new |].
  split; [by apply lookup_app_l_Some |].
  split; [by apply lookup_app_l_Some |].
  split; [| done].
  intros r' q Hq. by apply lookup_app_l_Some.
Qed.

(** *** Resolving all codes *)

Lemma codes_unfold_list st self p (l : list string) :
  (forall a, a ∈ l -> a ∈ axes) ->
  heap st !! self = Some p ->
  (cs <- codes_comprehension self (map VStr l) ;; lift (str_join cs)) st =
  (parts <- resolve_each self
              (List.filter (fun axis => negb (is_None (slot p axis))) l) ;;
   ret (fold_right String.append "" parts)) st.
Proof.
  revert st. induction l as [| a l IH]; intros st Hl Hp; [done |].
  assert (a ∈ axes) as Ha by (apply Hl; left).
  assert (forall a', a' ∈ l -> a' ∈ axes) as Hl' by (intros; apply Hl; by right).
  cbn [map codes_comprehension List.filter]. unfold bind at 1 2. rewrite (getattr_slot _ _ _ _ _ Hp Ha).
  destruct (is_None (slot p a)) eqn:Hset; simpl.
  - by apply IH.
  - apply is_None_false in Hset.
    cbn [resolve_each]. unfold bind at 1 2. unfold bind at 2 3.
    unfold bind at 1.
    rewrite (code_set _ _ _ _ _ Hp Ha Hset).
    destruct (resolved a (slot p a)) as [o evs] eqn:Hres. simpl.
    destruct o as [v | e]; [| done].
    destruct (resolved_str a (slot p a) v) as [s ->]; [by rewrite Hres |].
    specialize (IH (logged st evs) Hl' Hp). unfold bind in IH.
    destruct (codes_comprehension self (map VStr l) (logged st evs))
      as [[cs | e] st2];
    destruct (resolve_each self _ (logged st evs)) as [[parts | e'] st3];
      unfold lift, ret in *; simpl in *;
      inversion IH as [[IH1 IH2]]; by rewrite ?IH1.
Qed.

Lemma set_axes_in (p : Preset) (axis : string) :
  axis ∈ set_axes p <-> axis ∈ axes /\ slot p axis <> VNone.
Proof.
  unfold set_axes. rewrite !list_elem_of_In, filter_In, negb_true_iff.
  by rewrite is_None_false.
Qed.

Lemma codes_unfold st self p :
  heap st !! self = Some p -> codes self st = ResolveAllCodes self p st.
Proof.
  intros Hp. unfold codes, ResolveAllCodes, set_axes.
  by apply (codes_unfold_list st self p axes).
Qed.

(** C3. [codes] is the concatenation, in the order fore, back, style, of
    [code] without a default on each axis that is set, the other axes
    adding nothing; each of these results is a string; and for a preset
    with no axis set it is the empty string, no collaborator being
    called. *)
Theorem codes_concatenates st self p :
  heap st !! self = Some p ->
  codes self st = ResolveAllCodes self p st /\
  (forall axis st1 st2 v,
     axis ∈ set_axes p -> heap st1 = heap st ->
     code self (VStr axis) VNone st1 = (Ok v, st2) ->
     v = VStr (text_of v) /\ heap st2 = heap st) /\
  (fore p = VNone -> back p = VNone -> style p = VNone ->
   codes self st = (Ok "", st)).
Proof.
  intros Hp. split; [by apply codes_unfold |]. split.
  - intros axis st1 st2 v Hin Hheap Hcode.
    apply set_axes_in in Hin as [Hax Hset].
    rewrite (code_set st1 self p) in Hcode by (by rewrite ?Hheap).
    injection Hcode as Hv <-.
    apply resolved_str in Hv as [s ->]. by split.
  - intros Hf Hb Hs. rewrite (codes_unfold _ _ _ Hp).
    unfold ResolveAllCodes, set_axes, axes, slot. simpl.
    by rewrite Hf, Hb, Hs.
Qed.


(** *** Validation happens at resolution *)

Lemma invalid_resolved (p : Preset) (axis : string) (e : exn) :
  axis ∈ axes -> slot p axis <> VNone ->
  (resolved axis (slot p axis)).1 = Raise e <-> invalid p axis e.
Proof.
  intros Hax Hset. unfold invalid, resolved.
  destruct (colr_codes (VStr axis) (slot p axis)) as [frag |]; simpl.
  - destruct (String.eqb_spec frag "") as [-> | Hne]; simpl.
    + split; [eauto 10 | by intros (_ & _ & _ & ?)].
    + split; [discriminate |]. intros (_ & _ & [? | ?] & _); congruence.
  - split; [eauto 10 | by intros (_ & _ & _ & ?)].
Qed.

Lemma resolve_each_heap st self p (l : list string) o st' :
  (forall a, a ∈ l -> a ∈ set_axes p) ->
  heap st !! self = Some p ->
  resolve_each self l st = (o, st') -> heap st' = heap st.
Proof.
  revert st o. induction l as [| a l IH]; intros st o Hl Hp Hrun.
  - by injection Hrun as _ <-.
  - assert (a ∈ set_axes p) as Ha by (apply Hl; left).
    apply set_axes_in in Ha as [Ha Hset].
    cbn [resolve_each] in Hrun. unfold bind at 1 in Hrun.
    rewrite (code_set _ _ _ _ _ Hp Ha Hset) in Hrun.
    destruct (resolved a (slot p a)) as [[v | e] evs]; simpl in Hrun.
    + unfold bind in Hrun.
      destruct (resolve_each self l (logged st evs)) as [[parts | e] st2] eqn:Hrest;
        injection Hrun as _ <-;
        by apply (IH (logged st evs)) in Hrest; [| intros; apply Hl; by right |].
    + by injection Hrun as _ <-.
Qed.

Lemma resolve_each_raises st self p (l : list string) axis e :
  (forall a, a ∈ l -> a ∈ set_axes p) ->
  heap st !! self = Some p ->
  axis ∈ l -> invalid p axis e ->
  exists axis' e' st',
    axis' ∈ l /\ invalid p axis' e' /\
    resolve_each self l st = (Raise e', st').
Proof.
  revert st. induction l as [| a l IH]; intros st Hl Hp Hin Hinv.
  - by apply elem_of_nil in Hin.
  - assert (a ∈ set_axes p) as Ha by (apply Hl; left).
    apply set_axes_in in Ha as [Ha Hset].
    cbn [resolve_each]. unfold bind at 1.
    rewrite (code_set _ _ _ _ _ Hp Ha Hset).
    destruct (resolved a (slot p a)) as [[v | e0] evs] eqn:Hres; simpl.
    + apply elem_of_cons in Hin as [-> | Hin].
      { apply invalid_resolved in Hinv; [| done | done].
        rewrite Hres in Hinv. discriminate. }
      destruct (IH (logged st evs)) as (axis' & e' & st' & Hin' & Hinv' & Hrun);
        [intros; apply Hl; by right | done | done | done |].
      exists axis', e', st'. split; [by right |]. split; [done |].
      unfold bind. by rewrite Hrun.
    + exists a, e0, (logged st evs). split; [by left |]. split; [| done].
      apply invalid_resolved; [done | done |]. by rewrite Hres.
Qed.

Lemma codes_raises st self p axis e :
  heap st !! self = Some p -> invalid p axis e ->
  exists axis' e' st',
    invalid p axis' e' /\ heap st' = heap st /\
    codes self st = (Raise e', st').
Proof.
  intros Hp Hinv.
  assert (axis ∈ set_axes p) as Hin
    by (apply set_axes_in; destruct Hinv as (? & ? & _); done).
  destruct (resolve_each_raises st self p (set_axes p) axis e)
    as (axis' & e' & st' & _ & Hinv' & Hrun); try done.
  exists axis', e', st'. split; [done |]. split.
  - by eapply resolve_each_heap.
  - rewrite (codes_unfold _ _ _ Hp). unfold ResolveAllCodes, bind.
    by rewrite Hrun.
Qed.

(** C8. Constructing a preset succeeds for any three values and calls no
    collaborator. On the instance it returns, an axis value the colorizer
    rejects makes [code] on that axis raise the colorizer's exception and
    makes [codes] raise the exception of such an axis instead of returning
    a string; [__call__] raises whatever [Colr] raises for the three
    values; and [as_dict], before and after these, reports every value
    that is set, as it was given. *)
Theorem validation_deferred st fore_ back_ style_ :
  let p := mkPreset fore_ back_ style_ in
  exists self st',
    __init__ fore_ back_ style_ st = (Ok self, st') /\
    heap st' !! self = Some p /\
    trace st' = trace st /\
    as_dict self st' = (Ok (set_slots p), st') /\
    (forall axis, axis ∈ axes -> slot p axis <> VNone ->
       set_slots p !! axis = Some (slot p axis)) /\
    (forall axis e, invalid p axis e ->
       (forall d, exists st2,
          code self (VStr axis) d st' = (Raise e, st2) /\
          as_dict self st2 = (Ok (set_slots p), st2)) /\
       (exists axis' e' st2,
          invalid p axis' e' /\
          codes self st' = (Raise e', st2) /\
          as_dict self st2 = (Ok (set_slots p), st2))) /\
    (forall text e, Colr text fore_ back_ style_ = Raise e ->
       exists st2,
         __call__ self text VNone VNone VNone st' = (Raise e, st2) /\
         as_dict self st2 = (Ok (set_slots p), st2)).
Proof.
  intros p. unfold __init__, alloc.
  set (st' := mkState (heap st ++ [p]) (trace st)).
  assert (heap st' !! length (heap st) = Some p) as Hp
    by (subst st'; simpl; by rewrite list_lookup_middle).
  exists (length (heap st)), st'.
  split; [done |]. split; [done |]. split; [done |].
  split; [by apply as_dict_unfold |]. split; [| split].
  - intros axis Hax Hset. rewrite set_slots_lookup by done.
    apply is_None_false in Hset. by rewrite Hset.
  - intros axis e Hinv. split.
    + intros d. destruct (Hinv) as (Hax & Hset & _).
      eexists. rewrite (code_set _ _ _ _ _ Hp Hax Hset).
      apply invalid_resolved in Hinv; [| done | done]. rewrite Hinv.
      split; [reflexivity |]. by apply as_dict_unfold.
    + destruct (codes_raises _ _ _ _ _ Hp Hinv)
        as (axis' & e' & st2 & Hinv' & Hheap & Hrun).
      exists axis', e', st2. split; [done |]. split; [done |].
      apply as_dict_unfold. by rewrite Hheap.
  - intros text e Hrej. eexists.
    rewrite (call_unfold _ _ _ _ _ _ _ Hp). simpl. rewrite Hrej.
    split; [reflexivity |]. by apply as_dict_unfold.
Qed.


(** *** Absent means [None] *)

Lemma layer_cases (upper lower : value) :
  (upper <> VNone -> layer upper lower = upper) /\
  (upper = VNone -> layer upper lower = lower).
Proof. destruct upper; simpl; split; congruence. Qed.

Lemma slot_layers (hi lo : Preset) (axis : string) :
  axis ∈ axes ->
  slot (mkPreset (layer (fore hi) (fore lo)) (layer (back hi) (back lo))
                 (layer (style hi) (style lo))) axis =
  layer (slot hi axis) (slot lo axis).
Proof. intros Hax. apply axes_cases in Hax. by destruct Hax as [-> | [-> | ->]]. Qed.

(** C10. An axis is absent exactly when its value is [None]. An override
    given to [__call__] is used whenever it is not [None], the preset's
    own value otherwise; [as_dict] has an entry for an axis exactly when
    its slot is not [None]; [codes] resolves exactly the axes whose slot
    is not [None]; [merge] lets a layer overwrite an axis exactly when its
    value there is not [None]; and [code] returns the default when the
    slot is [None], while for any other slot value, a falsy one included,
    it ignores the default and starts by looking the value up. *)
Theorem absent_is_None st self other p po :
  heap st !! self = Some p -> heap st !! other = Some po ->
  (forall text fore_ back_ style_,
     exists used,
       __call__ self text fore_ back_ style_ st =
         (Colr text (fore used) (back used) (style used),
          logged st [ColrNew text (fore used) (back used) (style used)]) /\
       forall axis, axis ∈ axes ->
         let given := slot (mkPreset fore_ back_ style_) axis in
         (given <> VNone -> slot used axis = given) /\
         (given = VNone -> slot used axis = slot p axis)) /\
  (exists d,
     as_dict self st = (Ok d, st) /\
     forall axis v, axis ∈ axes ->
       d !! axis = Some v <-> slot p axis = v /\ v <> VNone) /\
  (codes self st = ResolveAllCodes self p st /\
   forall axis, axis ∈ set_axes p <-> axis ∈ axes /\ slot p axis <> VNone) /\
  (forall fore_ back_ style_,
     exists r st' merged,
       merge self other fore_ back_ style_ st = (Ok r, st') /\
       heap st' !! r = Some merged /\
       forall axis, axis ∈ axes ->
         let given := slot (mkPreset fore_ back_ style_) axis in
         (given <> VNone -> slot merged axis = given) /\
         (given = VNone -> slot po axis <> VNone ->
          slot merged axis = slot po axis) /\
         (given = VNone -> slot po axis = VNone ->
          slot merged axis = slot p axis)) /\
  (forall axis d, axis ∈ axes ->
     (slot p axis = VNone -> code self (VStr axis) d st = (Ok d, st)) /\
     (slot p axis <> VNone ->
      exists evs,
        code self (VStr axis) d st =
          ((resolved axis (slot p axis)).1,
           logged st (CodesGet (VStr axis) (slot p axis) :: evs)))).
Proof.
  intros Hp Ho. split; [| split; [| split; [| split]]].
  - intros text fore_ back_ style_.
    exists (mkPreset (layer fore_ (fore p)) (layer back_ (back p))
                     (layer style_ (style p))).
    split; [by apply call_unfold |].
    intros axis Hax given. subst given.
    rewrite (slot_layers (mkPreset fore_ back_ style_) p) by done.
    apply layer_cases.
  - exists (set_slots p). split; [by apply as_dict_unfold |].
    intros axis v Hax. rewrite set_slots_lookup by done.
    destruct (is_None (slot p axis)) eqn:Hset.
    + apply is_None_true in Hset. split; [discriminate |].
      intros [<- Hv]. done.
    + apply is_None_false in Hset. split.
      * by intros [= <-].
      * by intros [-> _].
  - split; [by apply codes_unfold | apply set_axes_in].
  - intros fore_ back_ style_. do 3 eexists.
    split; [by apply merge_unfold |]. simpl.
    split; [apply lookup_second_new |].
    intros axis Hax. cbv zeta.
    pose proof (slot_layers (mkPreset fore_ back_ style_)
                  (mkPreset (layer (fore po) (fore p))
                            (layer (back po) (back p))
                            (layer (style po) (style p))) axis Hax) as Hm.
    simpl in Hm. rewrite Hm, (slot_layers po p) by done.
    destruct (layer_cases (slot (mkPreset fore_ back_ style_) axis)
                (layer (slot po axis) (slot p axis))) as [Hgiven Hnot].
    destruct (layer_cases (slot po axis) (slot p axis)) as [Hother Hself].
    split; [done |]. split.
    + intros Hnone Hset. by rewrite Hnot, Hother.
    + intros Hnone Hnone'. by rewrite Hnot, Hself.
  - intros axis d Hax. split.
    + intros Hnone. by apply (code_unset _ _ p).
    + intros Hset. destruct (resolved_first_event axis (slot p axis)) as [evs Hevs].
      exists evs. rewrite <- Hevs. by apply code_set.
Qed.

(** *** Comparisons between presets *)

Lemma eq_unfold st self other p q :
  heap st !! self = Some p -> heap st !! other = Some q ->
  __eq__ self (OPreset other) st = (Ok (Preset_eqb p q), st).
Proof.
  intros Hp Hq. unfold __eq__, bind.
  by rewrite (deref_live _ _ _ Hp), (deref_live _ _ _ Hq).
Qed.

Lemma lt_unfold st self other p q :
  heap st !! self = Some p -> heap st !! other = Some q ->
  __lt__ self (OPreset other) st =
    (value_lt (VTuple [fore p; back p; style p])
              (VTuple [fore q; back q; style q]), st).
Proof.
  intros Hp Hq. unfold __lt__, bind.
  by rewrite (deref_live _ _ _ Hp), (deref_live _ _ _ Hq).
Qed.

Lemma Preset_eqb_eq (p q : Preset) : Preset_eqb p q = true <-> p = q.
Proof.
  unfold Preset_eqb. rewrite eq_slots. destruct p, q; simpl. split.
  - by intros (-> & -> & ->).
  - by intros [= -> -> ->].
Qed.

Lemma value_eqb_sym (v w : value) : value_eqb v w = value_eqb w v.
Proof.
  destruct (value_eqb v w) eqn:Hvw, (value_eqb w v) eqn:Hwv; try done.
  - apply value_eqb_eq in Hvw as ->. by rewrite value_eqb_refl in Hwv.
  - apply value_eqb_eq in Hwv as ->. by rewrite value_eqb_refl in Hvw.
Qed.

Lemma string_ltb_irrefl (s : string) : String.ltb s s = false.
Proof.
  unfold String.ltb. pose proof (String.compare_antisym s s) as H.
  by destruct (String.compare s s).
Qed.

(** The converse of a comparison between two different values: it returns
    the opposite, and raises when the first raises. *)
Lemma value_lt_converse (v w : value) :
  value_eqb v w = false ->
  value_lt w v =
    match value_lt v w with Ok b => Ok (negb b) | Raise e => Raise e end.
Proof.
  revert w. induction v as [| s | n | vs IH] using value_nested_ind;
    intros [| s' | n' | ws] Hne; simpl in *; try done.
  - unfold String.ltb. rewrite (String.compare_antisym s s').
    destruct (String.compare s' s) eqn:Hcmp; simpl; try done.
    apply String.compare_eq_iff in Hcmp as ->.
    by rewrite String.eqb_refl in Hne.
  - f_equal. apply Z.eqb_neq in Hne.
    destruct (Z.ltb_spec n' n), (Z.ltb_spec n n'); simpl; try done; lia.
  - revert ws Hne. induction IH as [| x l Hx _ IHl]; intros [| y m] Hne;
      try done.
    rewrite (value_eqb_sym y x).
    destruct (value_eqb x y) eqn:Hxy; simpl in *.
    + by apply IHl.
    + by apply Hx.
Qed.

(** X1. Between presets [__eq__] always returns a boolean and does not
    raise, and it is an equivalence:
    every preset equals itself, the two directions agree, and equality
    carries over a common middle preset. *)
Theorem eq_equivalence st a b c p q r :
  heap st !! a = Some p -> heap st !! b = Some q -> heap st !! c = Some r ->
  (exists r, __eq__ a (OPreset b) st = (Ok r, st)) /\
  __eq__ a (OPreset a) st = (Ok true, st) /\
  __eq__ a (OPreset b) st = __eq__ b (OPreset a) st /\
  (__eq__ a (OPreset b) st = (Ok true, st) ->
   __eq__ b (OPreset c) st = (Ok true, st) ->
   __eq__ a (OPreset c) st = (Ok true, st)).
Proof.
  intros Hp Hq Hr.
  rewrite (eq_unfold _ _ _ _ _ Hp Hp), (eq_unfold _ _ _ _ _ Hp Hq),
    (eq_unfold _ _ _ _ _ Hq Hp), (eq_unfold _ _ _ _ _ Hq Hr),
    (eq_unfold _ _ _ _ _ Hp Hr).
  split; [by eexists | split; [| split]].
  - do 2 f_equal. by apply Preset_eqb_eq.
  - f_equal. f_equal. unfold Preset_eqb.
    by rewrite (value_eqb_sym (fore p)), (value_eqb_sym (back p)),
      (value_eqb_sym (style p)).
  - intros [= Hpq] [= Hqr]. f_equal. f_equal.
    apply Preset_eqb_eq in Hpq as ->. apply Preset_eqb_eq in Hqr as ->.
    by apply Preset_eqb_eq.
Qed.

(** X2. Two presets with equal slots are not below one another: [__lt__]
    returns [False] and does not raise, whatever the slots hold, [None]
    included. In particular no preset is below itself. *)
Theorem lt_equal_is_False st self other p q :
  heap st !! self = Some p -> heap st !! other = Some q ->
  __eq__ self (OPreset other) st = (Ok true, st) ->
  __lt__ self (OPreset other) st = (Ok false, st) /\
  __lt__ self (OPreset self) st = (Ok false, st).
Proof.
  intros Hp Hq. rewrite (eq_unfold _ _ _ _ _ Hp Hq). intros [= Heq].
  rewrite (lt_unfold _ _ _ _ _ Hp Hq), (lt_unfold _ _ _ _ _ Hp Hp).
  apply Preset_eqb_eq in Heq as <-. rewrite lt_triples. unfold lex_triple_lt.
  by rewrite !value_eqb_refl.
Qed.

Lemma lt_first_diff st self other p q axis :
  heap st !! self = Some p -> heap st !! other = Some q ->
  first_diff p q = Some axis ->
  __lt__ self (OPreset other) st =
    (value_lt (slot p axis) (slot q axis), st).
Proof.
  intros Hp Hq Hdiff. rewrite (lt_unfold _ _ _ _ _ Hp Hq), lt_triples.
  unfold lex_triple_lt. revert Hdiff. unfold first_diff, axes, slot. simpl.
  destruct (value_eqb (fore p) (fore q)); simpl; [| by intros [= <-]].
  destruct (value_eqb (back p) (back q)); simpl; [| by intros [= <-]].
  destruct (value_eqb (style p) (style q)); simpl; [done | by intros [= <-]].
Qed.

(** X3. When the first axis in which two presets differ is [None] in one
    of them, [__lt__] raises [TypeError]: a preset that sets an axis and
    one that leaves it out cannot be ordered. *)
Theorem lt_against_None st self other p q axis :
  heap st !! self = Some p -> heap st !! other = Some q ->
  first_diff p q = Some axis ->
  slot p axis = VNone \/ slot q axis = VNone ->
  __lt__ self (OPreset other) st = (Raise TypeError, st).
Proof.
  intros Hp Hq Hdiff Hnone.
  rewrite (lt_first_diff _ _ _ _ _ _ Hp Hq Hdiff).
  destruct Hnone as [-> | ->]; [done |]. by destruct (slot p axis).
Qed.

(** X4. When on every axis the two slots are equal or are two strings or
    two numbers, [__lt__] returns a boolean: such presets can be sorted. *)
Theorem lt_returns st self other p q :
  heap st !! self = Some p -> heap st !! other = Some q ->
  (forall axis, axis ∈ axes ->
     slot p axis = slot q axis \/ comparable (slot p axis) (slot q axis)) ->
  exists b, __lt__ self (OPreset other) st = (Ok b, st).
Proof.
  intros Hp Hq Hcmp.
  destruct (first_diff p q) as [axis |] eqn:Hdiff.
  - rewrite (lt_first_diff _ _ _ _ _ _ Hp Hq Hdiff).
    apply find_some in Hdiff as [Hin Hne]. apply list_elem_of_In in Hin.
    destruct (Hcmp axis Hin) as [Heq | Hkind].
    + rewrite Heq, value_eqb_refl in Hne. discriminate.
    + destruct (slot p axis), (slot q axis); try done; simpl; eauto.
  - rewrite (lt_unfold _ _ _ _ _ Hp Hq), lt_triples. unfold lex_triple_lt.
    revert Hdiff. unfold first_diff, axes, slot. simpl.
    destruct (value_eqb (fore p) (fore q)); simpl; [| done].
    destruct (value_eqb (back p) (back q)); simpl; [| done].
    destruct (value_eqb (style p) (style q)); simpl; [eauto | done].
Qed.

(** X5. Whenever [self < other] returns, [other < self] returns too, and
    at most one of the two is true; when the presets differ exactly one
    is. *)
Theorem lt_converse st self other p q b :
  heap st !! self = Some p -> heap st !! other = Some q ->
  __lt__ self (OPreset other) st = (Ok b, st) ->
  exists b',
    __lt__ other (OPreset self) st = (Ok b', st) /\
    (b && b' = false) /\
    (p <> q -> b' = negb b).
Proof.
  intros Hp Hq. rewrite (lt_unfold _ _ _ _ _ Hp Hq), (lt_unfold _ _ _ _ _ Hq Hp).
  intros Hlt. apply (f_equal fst) in Hlt. cbn [fst] in Hlt.
  destruct (value_eqb (VTuple [fore p; back p; style p])
                      (VTuple [fore q; back q; style q])) eqn:Heq.
  - apply value_eqb_eq in Heq. injection Heq as Hf Hb Hs.
    assert (p = q) as <- by (destruct p, q; simpl in *; congruence).
    exists b. split; [by rewrite Hlt |]. split; [| done].
    rewrite lt_triples in Hlt. unfold lex_triple_lt in Hlt.
    rewrite !value_eqb_refl in Hlt. simpl in Hlt. by injection Hlt as <-.
  - rewrite (value_lt_converse _ _ Heq), Hlt.
    exists (negb b). split; [done |]. split; [by destruct b | done].
Qed.

(** X6. Given anything that is not a [Preset], the comparisons derived
    from [__lt__] and [__eq__] raise [TypeError] as those two do. *)
Theorem derived_not_a_Preset st self other :
  isinstance_Preset other = false ->
  __ne__ self other st = (Raise TypeError, st) /\
  __gt__ self other st = (Raise TypeError, st) /\
  __le__ self other st = (Raise TypeError, st) /\
  __ge__ self other st = (Raise TypeError, st).
Proof. by destruct other. Qed.

Lemma lt_true_not_eq (p q : Preset) :
  value_lt (VTuple [fore p; back p; style p])
           (VTuple [fore q; back q; style q]) = Ok true ->
  Preset_eqb p q = false.
Proof.
  rewrite lt_triples. unfold lex_triple_lt, Preset_eqb.
  destruct (value_eqb (fore p) (fore q)); simpl; [| done].
  destruct (value_eqb (back p) (back q)); simpl; [| done].
  by destruct (value_eqb (style p) (style q)).
Qed.

(** X7. Whenever [self < other] returns, the derived comparisons return
    as well and exactly one of [<], [==], [>] is true; [<=] is true
    exactly when [<] or [==] is, and [>=] exactly when [<] is not. *)
Theorem trichotomy st self other p q lt :
  heap st !! self = Some p -> heap st !! other = Some q ->
  __lt__ self (OPreset other) st = (Ok lt, st) ->
  exists eq gt,
    __eq__ self (OPreset other) st = (Ok eq, st) /\
    __gt__ self (OPreset other) st = (Ok gt, st) /\
    __le__ self (OPreset other) st = (Ok (lt || eq), st) /\
    __ge__ self (OPreset other) st = (Ok (negb lt), st) /\
    __ne__ self (OPreset other) st = (Ok (negb eq), st) /\
    ((lt = true /\ eq = false /\ gt = false) \/
     (lt = false /\ eq = true /\ gt = false) \/
     (lt = false /\ eq = false /\ gt = true)).
Proof.
  intros Hp Hq Hlt.
  pose proof (eq_unfold _ _ _ _ _ Hp Hq) as Heq.
  exists (Preset_eqb p q), (negb lt && negb (Preset_eqb p q)).
  unfold __gt__, __le__, __ge__, __ne__, bind. rewrite Hlt.
  rewrite (lt_unfold _ _ _ _ _ Hp Hq) in Hlt.
  apply (f_equal fst) in Hlt. cbn [fst] in Hlt.
  destruct lt; cbn [negb orb andb]; rewrite ?Heq; unfold ret.
  - apply lt_true_not_eq in Hlt. rewrite Hlt. auto 10.
  - destruct (Preset_eqb p q); auto 10.
Qed.

(** X8. [self > other], as derived, is [other < self]: whenever
    [self < other] returns, the two return the same boolean. *)
Theorem gt_is_flipped_lt st self other p q lt :
  heap st !! self = Some p -> heap st !! other = Some q ->
  __lt__ self (OPreset other) st = (Ok lt, st) ->
  __gt__ self (OPreset other) st = __lt__ other (OPreset self) st.
Proof.
  intros Hp Hq Hlt. unfold __gt__, __ne__, bind.
  rewrite Hlt, (lt_unfold _ _ _ _ _ Hq Hp).
  rewrite (lt_unfold _ _ _ _ _ Hp Hq) in Hlt.
  apply (f_equal fst) in Hlt. cbn [fst] in Hlt.
  pose proof (eq_unfold _ _ _ _ _ Hp Hq) as Hequ.
  destruct (Preset_eqb p q) eqn:Heq.
  - apply Preset_eqb_eq in Heq as <-. rewrite Hlt.
    rewrite lt_triples in Hlt. unfold lex_triple_lt in Hlt.
    rewrite !value_eqb_refl in Hlt. cbn [negb] in Hlt. injection Hlt as <-.
    cbn [negb]. by rewrite Hequ.
  - assert (value_eqb (VTuple [fore p; back p; style p])
                      (VTuple [fore q; back q; style q]) = false) as Hne.
    { destruct (value_eqb (VTuple _) (VTuple _)) eqn:Hv; [| done].
      apply value_eqb_eq in Hv. injection Hv as Hf Hb Hs.
      assert (p = q) as Hpq by (destruct p, q; simpl in *; congruence).
      apply Preset_eqb_eq in Hpq. congruence. }
    rewrite (value_lt_converse _ _ Hne), Hlt.
    destruct lt; cbn [negb]; by rewrite ?Hequ.
Qed.

(** *** Dictionaries and presets *)

Lemma set_slots_outside (p : Preset) (k : string) :
  k ∉ axes -> set_slots p !! k = None.
Proof.
  intros Hout. destruct (set_slots p !! k) as [v |] eqn:Hk; [| done].
  exfalso. apply Hout. apply axes_cases.
  assert (k ∈ dom (set_slots p)) as Hdom by (apply elem_of_dom; eauto).
  apply set_slots_dom in Hdom.
  rewrite !elem_of_union, !elem_of_singleton in Hdom.
  destruct Hdom as [[? | ?] | ?]; auto.
Qed.

Lemma Preset_kwargs_unfold st (d : gmap string value) :
  dom d ⊆ ({[ "fore"; "back"; "style" ]} : gset string) ->
  Preset_kwargs d st =
    (Ok (length (heap st)),
     mkState (heap st ++ [mkPreset (kwarg d "fore") (kwarg d "back")
                                   (kwarg d "style")])
             (trace st)).
Proof. intros Hdom. unfold Preset_kwargs. by rewrite bool_decide_eq_true_2. Qed.

Lemma Preset_eta (p : Preset) :
  mkPreset (slot p "fore") (slot p "back") (slot p "style") = p.
Proof. by destruct p. Qed.

(** X9. Building a preset from the dictionary of another gives a new
    instance with the same three slots: [Preset] called with the keyword
    arguments [p.as_dict()] is a copy of [p]. *)
Theorem as_dict_roundtrip st self p :
  heap st !! self = Some p ->
  exists d r st',
    as_dict self st = (Ok d, st) /\
    Preset_kwargs d st = (Ok r, st') /\
    heap st !! r = None /\
    heap st' !! r = Some p /\
    heap st' !! self = Some p.
Proof.
  intros Hp. exists (set_slots p). do 2 eexists.
  split; [by apply as_dict_unfold |].
  split; [apply Preset_kwargs_unfold, set_slots_dom |]. simpl.
  rewrite !kwarg_set_slots
    by (apply axes_fore || apply axes_back || apply axes_style).
  rewrite Preset_eta.
  split; [by apply lookup_ge_None |].
  split; [by rewrite list_lookup_middle | by apply lookup_app_l_Some].
Qed.

(** X10. In the other direction, for a dictionary whose keys are among
    ['fore'], ['back'], ['style'] and none of whose values is [None],
    [as_dict] of the preset built from it is that dictionary. *)
Theorem kwargs_roundtrip st (d : gmap string value) :
  dom d ⊆ ({[ "fore"; "back"; "style" ]} : gset string) ->
  (forall k, d !! k <> Some VNone) ->
  exists r st',
    Preset_kwargs d st = (Ok r, st') /\
    as_dict r st' = (Ok d, st').
Proof.
  intros Hdom Hset. do 2 eexists.
  split; [by apply Preset_kwargs_unfold |].
  rewrite (as_dict_unfold _ _ (mkPreset (kwarg d "fore") (kwarg d "back")
                                        (kwarg d "style")))
    by (simpl; by rewrite list_lookup_middle).
  do 2 f_equal. apply map_eq. intros k.
  destruct (decide (k ∈ axes)) as [Hax | Hout].
  - rewrite set_slots_lookup by done.
    assert (slot (mkPreset (kwarg d "fore") (kwarg d "back") (kwarg d "style"))
              k = kwarg d k) as ->.
    { apply axes_cases in Hax. by destruct Hax as [-> | [-> | ->]]. }
    unfold kwarg. destruct (d !! k) as [v |] eqn:Hk; simpl; [| done].
    destruct v; try done. by apply Hset in Hk.
  - rewrite set_slots_outside by done. symmetry.
    apply not_elem_of_dom. intros Hk. apply Hout, axes_cases.
    apply Hdom in Hk. rewrite !elem_of_union, !elem_of_singleton in Hk.
    destruct Hk as [[? | ?] | ?]; auto.
Qed.

(** X11. The dictionary [as_dict] returns has no key besides the axes that
    are set, each with the slot's value, and it is empty exactly for the
    preset with no axis set. *)
Theorem as_dict_keys st self p :
  heap st !! self = Some p ->
  exists d,
    as_dict self st = (Ok d, st) /\
    (forall k v, d !! k = Some v <-> k ∈ set_axes p /\ slot p k = v) /\
    (d = ∅ <-> p = empty_Preset).
Proof.
  intros Hp. exists (set_slots p). split; [by apply as_dict_unfold |].
  assert (forall k v, set_slots p !! k = Some v <->
                      k ∈ set_axes p /\ slot p k = v) as Hkeys.
  { intros k v. rewrite set_axes_in.
    destruct (decide (k ∈ axes)) as [Hax | Hout].
    - rewrite set_slots_lookup by done.
      destruct (is_None (slot p k)) eqn:Hk.
      + apply is_None_true in Hk. split; [done |]. by intros [[_ ?] _].
      + apply is_None_false in Hk. split; [by intros [= <-] |].
        by intros [_ ->].
    - rewrite set_slots_outside by done. split; [done |]. by intros [[? _] _]. }
  split; [done |]. split.
  - intros Hempty.
    assert (forall k, k ∈ axes -> slot p k = VNone) as Hnone.
    { intros k Hax. destruct (slot p k) eqn:Hk; [done | | |];
        (assert (set_slots p !! k = Some (slot p k)) as Hin
           by (apply Hkeys; rewrite set_axes_in, Hk; done);
         by rewrite Hempty, lookup_empty in Hin). }
    pose proof (Hnone _ axes_fore) as Hf. pose proof (Hnone _ axes_back) as Hb.
    pose proof (Hnone _ axes_style) as Hs. rewrite <- (Preset_eta p).
    by rewrite Hf, Hb, Hs.
  - by intros ->.
Qed.

(** X12. Two presets have the same dictionary exactly when [__eq__] finds
    them equal. *)
Theorem as_dict_injective st self other p q :
  heap st !! self = Some p -> heap st !! other = Some q ->
  exists d d',
    as_dict self st = (Ok d, st) /\
    as_dict other st = (Ok d', st) /\
    (d = d' <-> __eq__ self (OPreset other) st = (Ok true, st)).
Proof.
  intros Hp Hq. exists (set_slots p), (set_slots q).
  split; [by apply as_dict_unfold |]. split; [by apply as_dict_unfold |].
  rewrite (eq_unfold _ _ _ _ _ Hp Hq). split.
  - intros Hd. do 2 f_equal. apply Preset_eqb_eq.
    rewrite <- (Preset_eta p), <- (Preset_eta q).
    rewrite <- !kwarg_set_slots
      by (apply axes_fore || apply axes_back || apply axes_style).
    by rewrite Hd.
  - intros [= Heq]. by apply Preset_eqb_eq in Heq as ->.
Qed.

(** *** The algebra of [merge] *)

Lemma layer_assoc (a b c : value) :
  layer a (layer b c) = layer (layer a b) c.
Proof. by destruct a. Qed.

Lemma layer_None_r (a : value) : layer a VNone = a.
Proof. by destruct a. Qed.


(** [merge] without explicit arguments, as a layering. *)
Lemma merge_plain st self other ps po :
  heap st !! self = Some ps -> heap st !! other = Some po ->
  merge self other VNone VNone VNone st =
    (Ok (S (length (heap st))),
     mkState (heap st ++ [empty_Preset; layer_Preset po ps]) (trace st)).
Proof. intros Hs Ho. by rewrite (merge_unfold _ _ _ _ _ _ _ _ Hs Ho). Qed.

(** X13. Merging with a preset that sets nothing changes nothing, on
    either side: [p.merge(Preset())] and [Preset().merge(p)] are both new
    instances, at references not in the store before, with the slots of
    [p], and [p] itself is left as it was. *)
Theorem merge_identity st self blank p :
  heap st !! self = Some p -> heap st !! blank = Some empty_Preset ->
  exists r st' r' st'',
    merge self blank VNone VNone VNone st = (Ok r, st') /\
    heap st !! r = None /\
    heap st' !! r = Some p /\
    heap st' !! self = Some p /\
    merge blank self VNone VNone VNone st = (Ok r', st'') /\
    heap st !! r' = None /\
    heap st'' !! r' = Some p /\
    heap st'' !! self = Some p.
Proof.
  intros Hp He. do 4 eexists.
  split; [by apply merge_plain |].
  split; [apply lookup_ge_None; lia |]. split.
  { simpl. rewrite lookup_second_new. by destruct p. }
  split; [by apply lookup_app_l_Some |].
  split; [by apply merge_plain |].
  split; [apply lookup_ge_None; lia |].
  split; [| by apply lookup_app_l_Some].
  simpl. rewrite lookup_second_new. unfold layer_Preset. simpl.
  rewrite !layer_None_r. by destruct p.
Qed.


(** X15. [merge] is associative: [a.merge(b).merge(c)] and
    [a.merge(b.merge(c))] have the same slots. *)
Theorem merge_associative st a b c pa pb pc :
  heap st !! a = Some pa -> heap st !! b = Some pb -> heap st !! c = Some pc ->
  exists r st' r' st'' merged,
    (ab <- merge a b VNone VNone VNone ;;
     merge ab c VNone VNone VNone) st = (Ok r, st') /\
    (bc <- merge b c VNone VNone VNone ;;
     merge a bc VNone VNone VNone) st = (Ok r', st'') /\
    heap st' !! r = Some merged /\
    heap st'' !! r' = Some merged.
Proof.
  intros Ha Hb Hc. unfold bind.
  rewrite (merge_plain _ _ _ _ _ Ha Hb), (merge_plain _ _ _ _ _ Hb Hc).
  rewrite (merge_plain _ _ _ (layer_Preset pb pa) pc)
    by (simpl; first [apply lookup_second_new | by apply lookup_app_l_Some]).
  rewrite (merge_plain _ _ _ pa (layer_Preset pc pb))
    by (simpl; first [apply lookup_second_new | by apply lookup_app_l_Some]).
  do 5 eexists. split; [reflexivity |]. split; [reflexivity |]. simpl.
  rewrite !lookup_second_new. split; [reflexivity |].
  unfold layer_Preset. simpl. by rewrite !layer_assoc.
Qed.

(** X16. The explicit arguments of [merge] act as one more preset merged
    on top: [a.merge(b, fore, back, style)] has the slots of
    [a.merge(b).merge(Preset(fore, back, style))]. *)
Theorem merge_explicit_as_preset st a b pa pb fore_ back_ style_ :
  heap st !! a = Some pa -> heap st !! b = Some pb ->
  exists r st' r' st'' merged,
    merge a b fore_ back_ style_ st = (Ok r, st') /\
    (ab <- merge a b VNone VNone VNone ;;
     top <- __init__ fore_ back_ style_ ;;
     merge ab top VNone VNone VNone) st = (Ok r', st'') /\
    heap st' !! r = Some merged /\
    heap st'' !! r' = Some merged.
Proof.
  intros Ha Hb. unfold bind.
  rewrite (merge_unfold _ _ _ _ _ fore_ back_ style_ Ha Hb).
  rewrite (merge_plain _ _ _ _ _ Ha Hb). unfold __init__, alloc. simpl.
  rewrite (merge_plain _ _ _ (layer_Preset pb pa)
             (mkPreset fore_ back_ style_)).
  2: { simpl. apply lookup_app_l_Some, lookup_second_new. }
  2: { simpl. by rewrite list_lookup_middle. }
  do 5 eexists. split; [reflexivity |]. split; [reflexivity |]. simpl.
  rewrite !lookup_second_new. split; reflexivity.
Qed.

(** X17. Calling a merged preset is calling the first preset with the
    second's values and the explicit arguments as overrides: the same
    call to [Colr], with the same outcome. *)
Theorem call_of_merge st self other ps po text fore_ back_ style_ :
  heap st !! self = Some ps -> heap st !! other = Some po ->
  exists r st' out ev,
    merge self other fore_ back_ style_ st = (Ok r, st') /\
    __call__ r text VNone VNone VNone st' = (out, logged st' [ev]) /\
    __call__ self text (layer fore_ (fore po)) (layer back_ (back po))
             (layer style_ (style po)) st = (out, logged st [ev]).
Proof.
  intros Hs Ho. do 4 eexists.
  split; [by apply merge_unfold |]. split.
  - rewrite (call_unfold _ _ (mkPreset (layer fore_ (layer (fore po) (fore ps)))
                                      (layer back_ (layer (back po) (back ps)))
                                      (layer style_ (layer (style po) (style ps)))))
      by apply lookup_second_new.
    simpl. reflexivity.
  - rewrite (call_unfold _ _ _ _ _ _ _ Hs). by rewrite !layer_assoc.
Qed.

(** *** What resolution touches *)

Lemma logged_logged st evs evs' :
  logged (logged st evs) evs' = logged st (evs ++ evs').
Proof. unfold logged. simpl. by rewrite app_assoc. Qed.

Lemma logged_nil st : logged st [] = st.
Proof. unfold logged. rewrite app_nil_r. by destruct st. Qed.

(** X18. Whatever its arguments and its outcome, [code] leaves the store
    as it was and only adds to the calls made: none at all, or one lookup
    of the slot's value in the table of the axis, or that lookup followed
    by one call to [Colr] with that axis alone. *)
Theorem code_frame st self p codetype default out st' :
  heap st !! self = Some p ->
  code self codetype default st = (out, st') ->
  heap st' = heap st /\
  exists evs,
    trace st' = (trace st ++ evs)%list /\ (length evs <= 2)%nat /\
    (evs = [] \/
     exists axis,
       codetype = VStr axis /\ axis ∈ axes /\
       (evs = [CodesGet (VStr axis) (slot p axis)] \/
        evs = [CodesGet (VStr axis) (slot p axis);
               render_event axis (slot p axis)])).
Proof.
  intros Hp.
  destruct (py_in codetype codetypes) eqn:Hin.
  2: { unfold code. rewrite Hin. simpl.
       intros [= _ <-]. split; [done |]. exists [].
       split; [by rewrite app_nil_r |]. split; [simpl; lia | by left]. }
  apply py_in_codetypes in Hin as (axis & Hax & ->).
  rewrite (code_unfold _ _ _ _ _ Hp Hax). cbv zeta.
  destruct (is_None (slot p axis)).
  - intros [= _ <-]. split; [done |]. exists [].
    split; [by rewrite app_nil_r |]. split; [simpl; lia | by left].
  - destruct (colr_codes (VStr axis) (slot p axis)) as [frag |];
      [destruct (String.eqb frag "") |];
      intros [= _ <-]; (split; [done |]); eexists; (split; [done |]);
      (split; [simpl; lia |]); right; exists axis;
      (split; [done |]); (split; [done |]); auto.
Qed.

Lemma resolve_each_frame st self p (l : list string) out st' :
  (forall a, a ∈ l -> a ∈ set_axes p) ->
  heap st !! self = Some p ->
  resolve_each self l st = (out, st') ->
  exists evs, st' = logged st evs.
Proof.
  revert st out st'. induction l as [| a l IH]; intros st out st' Hl Hp Hrun.
  - injection Hrun as _ <-. exists []. by rewrite logged_nil.
  - assert (a ∈ set_axes p) as Ha by (apply Hl; left).
    apply set_axes_in in Ha as [Ha Hset].
    cbn [resolve_each] in Hrun. unfold bind at 1 in Hrun.
    rewrite (code_set _ _ _ _ _ Hp Ha Hset) in Hrun.
    destruct (resolved a (slot p a)) as [[v | e] evs]; simpl in Hrun.
    + unfold bind in Hrun.
      destruct (resolve_each self l (logged st evs)) as [[parts | e] st2] eqn:Hrest;
        injection Hrun as _ <-;
        (apply (IH (logged st evs)) in Hrest as [evs' ->];
           [| intros; apply Hl; by right | done]);
        exists (evs ++ evs')%list; by rewrite logged_logged.
    + injection Hrun as _ <-. by exists evs.
Qed.

(** X19. Whatever its outcome, [codes] leaves the store as it was and only
    adds to the calls made. *)
Theorem codes_frame st self p out st' :
  heap st !! self = Some p ->
  codes self st = (out, st') ->
  heap st' = heap st /\ exists evs, trace st' = (trace st ++ evs)%list.
Proof.
  intros Hp. rewrite (codes_unfold _ _ _ Hp). unfold ResolveAllCodes, bind.
  destruct (resolve_each self (set_axes p) st) as [[parts | e] st2] eqn:Hrun;
    intros [= _ <-];
    (apply (resolve_each_frame _ _ p) in Hrun as [evs ->]; [| done | done]);
    (split; [done |]); by exists evs.
Qed.

Lemma resolve_each_fast st self p (l : list string) :
  (forall a, a ∈ l -> a ∈ set_axes p) ->
  (forall a, a ∈ l ->
     exists frag, colr_codes (VStr a) (slot p a) = Some frag /\ frag <> "") ->
  heap st !! self = Some p ->
  resolve_each self l st =
    (Ok (map (fragment p) l), logged st (map (lookup_event p) l)).
Proof.
  revert st. induction l as [| a l IH]; intros st Hl Hfast Hp.
  - by rewrite logged_nil.
  - assert (a ∈ set_axes p) as Ha by (apply Hl; left).
    apply set_axes_in in Ha as [Ha Hset].
    destruct (Hfast a) as (frag & Hfound & Hfrag); [by left |].
    cbn [resolve_each map]. unfold bind at 1.
    rewrite (code_set _ _ _ _ _ Hp Ha Hset). unfold resolved.
    rewrite Hfound. apply String.eqb_neq in Hfrag. rewrite Hfrag. simpl.
    unfold bind. rewrite IH; try done.
    + unfold ret, fragment, lookup_event. rewrite Hfound, logged_logged. done.
    + intros; apply Hl; by right.
    + intros; apply Hfast; by right.
Qed.

(** X20. When the table has a non-empty fragment for every slot that is
    set, [codes] returns these fragments concatenated in the order fore,
    back, style, having made one lookup per axis that is set and no call
    to [Colr]. *)
Theorem codes_fast_path st self p :
  heap st !! self = Some p ->
  (forall axis, axis ∈ set_axes p ->
     exists frag,
       colr_codes (VStr axis) (slot p axis) = Some frag /\ frag <> "") ->
  codes self st =
    (Ok (fold_right String.append "" (map (fragment p) (set_axes p))),
     logged st (map (lookup_event p) (set_axes p))).
Proof.
  intros Hp Hfast. rewrite (codes_unfold _ _ _ Hp).
  unfold ResolveAllCodes, bind. by rewrite (resolve_each_fast _ _ p).
Qed.

Lemma resolve_each_stops st self p (pre post : list string) axis e :
  (forall a, a ∈ (pre ++ axis :: post)%list -> a ∈ set_axes p) ->
  heap st !! self = Some p ->
  (forall a e', a ∈ pre -> ~ invalid p a e') ->
  invalid p axis e ->
  resolve_each self (pre ++ axis :: post)%list st =
    (Raise e, logged st (flat_map (calls p) (pre ++ [axis])%list)).
Proof.
  revert st. induction pre as [| a pre IH]; intros st Hl Hp Hpre Hinv.
  - destruct (Hinv) as (Hax & Hset & _).
    cbn [app resolve_each flat_map]. unfold bind.
    rewrite (code_set _ _ _ _ _ Hp Hax Hset).
    apply invalid_resolved in Hinv; [| done | done]. rewrite Hinv.
    unfold calls. by rewrite app_nil_r.
  - assert (a ∈ set_axes p) as Ha by (apply Hl; left).
    apply set_axes_in in Ha as [Ha Hset].
    cbn [app resolve_each flat_map]. unfold bind at 1.
    rewrite (code_set _ _ _ _ _ Hp Ha Hset).
    destruct (resolved a (slot p a)) as [[v | e'] evs] eqn:Hres; simpl.
    + unfold bind. rewrite IH; try done.
      * unfold calls at 2. rewrite Hres, logged_logged. done.
      * intros; apply Hl; by right.
      * intros a' e' Hin. apply Hpre. by right.
    + exfalso. apply (Hpre a e'); [by left |].
      apply invalid_resolved; [done | done |]. by rewrite Hres.
Qed.

(** X21. [codes] raises the exception of the first axis, in the order
    fore, back, style, whose value is rejected, and stops there: the calls
    it has made are those for the axes up to that one, none for the axes
    after it. *)
Theorem codes_first_error st self p pre axis post e :
  heap st !! self = Some p ->
  set_axes p = (pre ++ axis :: post)%list ->
  (forall a e', a ∈ pre -> ~ invalid p a e') ->
  invalid p axis e ->
  codes self st =
    (Raise e, logged st (flat_map (calls p) (pre ++ [axis])%list)).
Proof.
  intros Hp Hsplit Hpre Hinv. rewrite (codes_unfold _ _ _ Hp).
  unfold ResolveAllCodes, bind. rewrite Hsplit.
  rewrite (resolve_each_stops _ _ p pre post axis e); try done.
  intros a Hin. by rewrite Hsplit.
Qed.

(** *** Where exceptions come from *)

(** X22. [code] raises only for a name that is no axis, and then
    [ValueError] with nothing called, or because [Colr] rejects the value
    of the slot: on a valid axis every exception is the colorizer's. *)
Theorem code_raises_only st self p codetype default e st' :
  heap st !! self = Some p ->
  code self codetype default st = (Raise e, st') ->
  ((codetype ∉ codetypes) /\ e = ValueError /\ st' = st) \/
  (exists axis, codetype = VStr axis /\ invalid p axis e).
Proof.
  intros Hp.
  destruct (py_in codetype codetypes) eqn:Hin.
  - apply py_in_codetypes in Hin as (axis & Hax & ->).
    rewrite (code_unfold _ _ _ _ _ Hp Hax). cbv zeta.
    destruct (is_None (slot p axis)) eqn:Hset; [done |].
    apply is_None_false in Hset. intros Hrun. right. exists axis.
    split; [done |]. apply invalid_resolved; [done | done |].
    unfold resolved.
    destruct (colr_codes (VStr axis) (slot p axis)) as [frag |];
      [destruct (String.eqb frag "") |]; by injection Hrun as ->.
  - unfold code. rewrite Hin. simpl. intros [= <- <-]. left.
    split; [| done]. intros Hmem.
    assert (py_in codetype codetypes = true) as Htrue; [| congruence].
    apply py_in_codetypes. unfold codetypes in Hmem.
    rewrite !elem_of_cons, elem_of_nil in Hmem.
    destruct Hmem as [-> | [-> | [-> | []]]];
      eexists; (split; [| reflexivity]);
      [apply axes_fore | apply axes_back | apply axes_style].
Qed.

Lemma resolve_each_raise_inv st self p (l : list string) e st' :
  (forall a, a ∈ l -> a ∈ set_axes p) ->
  heap st !! self = Some p ->
  resolve_each self l st = (Raise e, st') ->
  exists axis, axis ∈ l /\ invalid p axis e.
Proof.
  revert st st'. induction l as [| a l IH]; intros st st' Hl Hp Hrun; [done |].
  assert (a ∈ set_axes p) as Ha by (apply Hl; left).
  apply set_axes_in in Ha as [Ha Hset].
  cbn [resolve_each] in Hrun. unfold bind at 1 in Hrun.
  rewrite (code_set _ _ _ _ _ Hp Ha Hset) in Hrun.
  destruct (resolved a (slot p a)) as [[v | e0] evs] eqn:Hres; simpl in Hrun.
  - unfold bind in Hrun.
    destruct (resolve_each self l (logged st evs)) as [[parts | e1] st2] eqn:Hrest;
      [done |].
    injection Hrun as -> _.
    destruct (IH (logged st evs) st2) as (axis & Hin & Hinv);
      [intros; apply Hl; by right | done | done |].
    exists axis. split; [by right | done].
  - injection Hrun as -> _. exists a. split; [by left |].
    apply invalid_resolved; [done | done |]. by rewrite Hres.
Qed.

(** X23. [codes] raises only an exception with which [Colr] rejects the
    value of an axis that is set; when no value is rejected [codes]
    returns a string. *)
Theorem codes_raises_only st self p :
  heap st !! self = Some p ->
  (forall e st', codes self st = (Raise e, st') ->
     exists axis, axis ∈ set_axes p /\ invalid p axis e) /\
  ((forall axis e, ~ invalid p axis e) ->
   exists s st', codes self st = (Ok s, st')).
Proof.
  intros Hp.
  assert (forall e st', codes self st = (Raise e, st') ->
            exists axis, axis ∈ set_axes p /\ invalid p axis e) as Honly.
  { intros e st'. rewrite (codes_unfold _ _ _ Hp).
    unfold ResolveAllCodes, bind.
    destruct (resolve_each self (set_axes p) st) as [[parts | e1] st2] eqn:Hrun;
      [done |].
    intros [= <- <-]. by apply (resolve_each_raise_inv st self p _ e1 st2). }
  split; [done |]. intros Hvalid.
  destruct (codes self st) as [[s | e] st'] eqn:Hrun; [eauto |].
  destruct (Honly e st' eq_refl) as (axis & _ & Hinv). by apply Hvalid in Hinv.
Qed.

End Preset.

Arguments Colr_new {ColrObj} Colr text fg bg st _.
Arguments Colr_kwargs {ColrObj} Colr kwargs _.
Arguments __call__ {ColrObj} Colr self text fore_ back_ style_ _.
Arguments code colr_codes {ColrObj} Colr Colr_str self codetype default _.
Arguments codes_comprehension colr_codes {ColrObj} Colr Colr_str self names _.
Arguments codes colr_codes {ColrObj} Colr Colr_str self _.
Arguments render_axis {ColrObj} Colr Colr_str axis val.
Arguments resolved colr_codes {ColrObj} Colr Colr_str axis val.
Arguments invalid colr_codes {ColrObj} Colr Colr_str p axis e.
Arguments ResolveCode colr_codes {ColrObj} Colr Colr_str p axis default _.
Arguments resolve_each colr_codes {ColrObj} Colr Colr_str self l _.
Arguments ResolveAllCodes colr_codes {ColrObj} Colr Colr_str self p _.

(** ** The methods on concrete presets *)

(** ** The theorems on concrete presets *)

Local Close Scope Z_scope.

(** C1 at [Preset('red', style='bold').merge(Preset(back='white'),
    style='underline')]. *)
Lemma merge_layers_witness :
  heap st_warn !! 0%nat = Some (mkPreset (VStr "red") VNone (VStr "bold")) /\
  heap st_warn !! 1%nat = Some (mkPreset VNone (VStr "white") VNone) /\
  exists r st',
    merge 0 1 VNone VNone (VStr "underline") st_warn = (Ok r, st') /\
    heap st' !! r =
      Some (mkPreset (VStr "red") (VStr "white") (VStr "underline")) /\
    heap st' !! 0%nat = heap st_warn !! 0%nat /\
    heap st' !! 1%nat = heap st_warn !! 1%nat.
Proof.
  split; [reflexivity |]. split; [reflexivity |].
  destruct (merge_layers st_warn 0 1 _ _ VNone VNone (VStr "underline")
              eq_refl eq_refl)
    as (r & st' & Hrun & _ & Hnew & Hself & Hother & _).
  exists r, st'. split; [exact Hrun |]. split; [exact Hnew |].
  split; [exact Hself | exact Hother].
Defined.

(** No fragment of the sample table is empty. *)
Lemma sample_codes_escape_fragments : escape_fragments sample_codes.
Proof.
  intros codetype key Hfound. unfold sample_codes, esc in Hfound.
  destruct codetype, key; try discriminate Hfound.
  repeat (destruct (String.eqb _ _) in Hfound); discriminate Hfound.
Qed.

(** C2 at [Preset('red', style='bold').code('fore')]. *)
Lemma code_resolves_witness :
  escape_fragments sample_codes /\
  heap st_warn !! 0%nat = Some (mkPreset (VStr "red") VNone (VStr "bold")) /\
  ("fore" ∈ axes) /\
  code sample_codes sample_Colr sample_str 0 (VStr "fore") VNone st_warn =
    (Ok (VStr (esc "31")),
     logged st_warn [CodesGet (VStr "fore") (VStr "red")]).
Proof.
  split; [apply sample_codes_escape_fragments |].
  split; [reflexivity |]. split; [apply axes_fore |].
  destruct (code_resolves sample_codes string sample_Colr sample_str
              st_warn 0 _ "fore" VNone sample_codes_escape_fragments
              eq_refl axes_fore)
    as (_ & Hfast & _).
  apply (Hfast (esc "31")); [discriminate | reflexivity].
Defined.

(** C3 at [Preset('red', style='bold').codes()]. *)
Lemma codes_concatenates_witness :
  heap st_warn !! 0%nat = Some (mkPreset (VStr "red") VNone (VStr "bold")) /\
  codes sample_codes sample_Colr sample_str 0 st_warn =
    (Ok (esc "31" ++ esc "1"),
     logged st_warn [CodesGet (VStr "fore") (VStr "red");
                     CodesGet (VStr "style") (VStr "bold")]).
Proof.
  split; [reflexivity |].
  destruct (codes_concatenates sample_codes string sample_Colr sample_str
              st_warn 0 _ eq_refl) as (Hrun & _).
  rewrite Hrun. reflexivity.
Defined.

(** C4 at [Preset(fore='blue') < Preset(fore='red')]. *)
Lemma compare_Presets_witness :
  heap st_red_blue !! 1%nat = Some (mkPreset (VStr "blue") VNone VNone) /\
  heap st_red_blue !! 0%nat = Some (mkPreset (VStr "red") VNone VNone) /\
  __lt__ 1 (OPreset 0) st_red_blue = (Ok true, st_red_blue) /\
  exists b, __eq__ 1 (OPreset 0) st_red_blue = (Ok b, st_red_blue) /\ b <> true.
Proof.
  split; [reflexivity |]. split; [reflexivity |].
  destruct (compare_Presets st_red_blue 1 0 _ _ eq_refl eq_refl)
    as ((b & Heq & Hiff) & Hlt).
  split; [exact Hlt |]. exists b. split; [exact Heq |].
  intros Hb. apply Hiff in Hb as (Hfore & _). discriminate Hfore.
Defined.

(** C5 at [Preset(fore='red') == 42]. *)
Lemma compare_not_a_Preset_witness :
  isinstance_Preset (OValue (VInt 42%Z)) = false /\
  __eq__ 0 (OValue (VInt 42%Z)) st_red_blue = (Raise TypeError, st_red_blue) /\
  __lt__ 0 (OValue (VInt 42%Z)) st_red_blue = (Raise TypeError, st_red_blue).
Proof.
  split; [reflexivity |].
  apply (compare_not_a_Preset st_red_blue 0 (OValue (VInt 42%Z))). reflexivity.
Defined.

(** C6 at two instances of [Preset('red', None, 'bold')]. *)
Lemma hash_consistent_witness :
  heap st_twins !! 0%nat = Some (mkPreset (VStr "red") VNone (VStr "bold")) /\
  heap st_twins !! 1%nat = Some (mkPreset (VStr "red") VNone (VStr "bold")) /\
  __eq__ 0 (OPreset 1) st_twins = (Ok true, st_twins) /\
  __hash__ sample_hash 0 st_twins = __hash__ sample_hash 1 st_twins.
Proof.
  split; [reflexivity |]. split; [reflexivity |]. split; [reflexivity |].
  apply (hash_consistent sample_hash st_twins 0 1 _ _ eq_refl eq_refl).
  reflexivity.
Defined.

(** C7 at [code('bold')]. *)
Lemma code_bad_axis_witness :
  (VStr "bold" ∉ codetypes) /\
  code sample_codes sample_Colr sample_str 0 (VStr "bold") VNone st_warn =
    (Raise ValueError, st_warn).
Proof.
  assert (VStr "bold" ∉ codetypes) as Hout.
  { unfold codetypes. intros Hin.
    repeat (apply elem_of_cons in Hin as [Hin | Hin]; [discriminate Hin |]).
    exact (proj1 (elem_of_nil _) Hin). }
  split; [exact Hout |].
  apply (code_bad_axis sample_codes string sample_Colr sample_str
           st_warn 0 (VStr "bold") VNone Hout).
Defined.

(** C9 at [Preset(fore='red')('x', fore='blue')] followed by the same preset
    called on ['y']. *)
Lemma call_overrides_transient_witness :
  heap st_red_blue !! 0%nat = Some (mkPreset (VStr "red") VNone VNone) /\
  exists st1,
    __call__ sample_Colr 0 (VStr "x") (VStr "blue") VNone VNone st_red_blue =
      (Ok (esc "34" ++ "x" ++ esc "0"), st1) /\
    heap st1 = heap st_red_blue /\
    __call__ sample_Colr 0 (VStr "y") VNone VNone VNone st1 =
      (Ok (esc "31" ++ "y" ++ esc "0"),
       logged st1 [ColrNew (VStr "y") (VStr "red") VNone VNone]).
Proof.
  split; [reflexivity |].
  destruct (call_overrides_transient string sample_Colr st_red_blue 0 _
              (VStr "x") (VStr "blue") VNone VNone (VStr "y") eq_refl)
    as (st1 & Hfirst & Hheap & _ & Hsecond).
  exists st1. split; [exact Hfirst |]. split; [exact Hheap | exact Hsecond].
Defined.

(** C10 at [Preset(fore='', back=0, style=())]: the empty string is looked
    up and rendered, the default is not returned. *)
Lemma absent_is_None_witness :
  heap st_falsy !! 0%nat = Some (mkPreset (VStr "") (VInt 0) (VTuple [])) /\
  heap st_falsy !! 1%nat = Some (mkPreset (VStr "red") VNone VNone) /\
  exists evs,
    code sample_codes sample_Colr sample_str 0 (VStr "fore") (VStr "dflt")
         st_falsy =
      (Raise (InvalidColr (VStr "")),
       logged st_falsy (CodesGet (VStr "fore") (VStr "") :: evs)).
Proof.
  split; [reflexivity |]. split; [reflexivity |].
  destruct (absent_is_None sample_codes string sample_Colr sample_str
              st_falsy 0 1 _ _ eq_refl eq_refl)
    as (_ & _ & _ & _ & Hcode).
  destruct (Hcode "fore" (VStr "dflt") axes_fore) as (_ & Hset).
  destruct (Hset ltac:(discriminate)) as (evs & Hrun).
  exists evs. exact Hrun.
Defined.

(** [Preset(fore='not-a-color')]: constructing it succeeds, its dictionary
    reports the value, and [codes] raises [InvalidColr]. *)
Example invalid_value_propagates :
  let p := mkPreset (VStr "not-a-color") VNone VNone in
  let st := mkState [p] [] in
  __init__ (VStr "not-a-color") VNone VNone st0 = (Ok 0, st) /\
  invalid sample_codes sample_Colr sample_str p "fore"
          (InvalidColr (VStr "not-a-color")) /\
  (exists st', codes sample_codes sample_Colr sample_str 0 st =
               (Raise (InvalidColr (VStr "not-a-color")), st')) /\
  (exists d, as_dict 0 st = (Ok d, st) /\
             d !! "fore" = Some (VStr "not-a-color")).
Proof.
  split; [reflexivity |]. split.
  - split; [apply axes_fore |]. split; [discriminate |].
    split; [by left | reflexivity].
  - split; eexists; [reflexivity | split; reflexivity].
Qed.

(** [Preset().codes()] is the empty string and [Preset()('hi')] is
    ['hi']. *)
Example empty_preset_is_a_no_op :
  let st := mkState [mkPreset VNone VNone VNone] [] in
  codes sample_codes sample_Colr sample_str 0 st = (Ok "", st) /\
  exists st', __call__ sample_Colr 0 (VStr "hi") VNone VNone VNone st =
              (Ok "hi", st').
Proof. split; [reflexivity |]. eexists. reflexivity. Qed.

Arguments calls colr_codes {ColrObj} Colr Colr_str p axis.

(** ** The further properties on concrete presets *)

(** X1 at two instances of [Preset('red', None, 'bold')]. *)
Lemma eq_equivalence_witness :
  heap st_twins !! 0 = Some (mkPreset (VStr "red") VNone (VStr "bold")) /\
  heap st_twins !! 1 = Some (mkPreset (VStr "red") VNone (VStr "bold")) /\
  (exists r, __eq__ 0 (OPreset 1) st_twins = (Ok r, st_twins)) /\
  __eq__ 0 (OPreset 0) st_twins = (Ok true, st_twins) /\
  __eq__ 0 (OPreset 1) st_twins = __eq__ 1 (OPreset 0) st_twins.
Proof.
  split; [reflexivity |]. split; [reflexivity |].
  destruct (eq_equivalence st_twins 0 1 0 _ _ _ eq_refl eq_refl eq_refl)
    as (Hret & Hrefl & Hsym & _).
  split; [exact Hret |]. split; [exact Hrefl | exact Hsym].
Defined.

(** X2 at the same two instances. *)
Lemma lt_equal_is_False_witness :
  heap st_twins !! 0 = Some (mkPreset (VStr "red") VNone (VStr "bold")) /\
  heap st_twins !! 1 = Some (mkPreset (VStr "red") VNone (VStr "bold")) /\
  __eq__ 0 (OPreset 1) st_twins = (Ok true, st_twins) /\
  __lt__ 0 (OPreset 1) st_twins = (Ok false, st_twins).
Proof.
  split; [reflexivity |]. split; [reflexivity |]. split; [reflexivity |].
  apply (lt_equal_is_False st_twins 0 1 _ _ eq_refl eq_refl eq_refl).
Defined.

(** X3 at [Preset('red', style='bold') < Preset(back='white')]. *)
Lemma lt_against_None_witness :
  first_diff (mkPreset (VStr "red") VNone (VStr "bold"))
             (mkPreset VNone (VStr "white") VNone) = Some "fore" /\
  __lt__ 0 (OPreset 1) st_warn = (Raise TypeError, st_warn).
Proof.
  split; [reflexivity |].
  apply (lt_against_None st_warn 0 1 _ _ "fore" eq_refl eq_refl eq_refl).
  right. reflexivity.
Defined.

(** X4 at [Preset(fore='red') < Preset(fore='blue')]. *)
Lemma lt_returns_witness :
  heap st_red_blue !! 0 = Some (mkPreset (VStr "red") VNone VNone) /\
  heap st_red_blue !! 1 = Some (mkPreset (VStr "blue") VNone VNone) /\
  exists b, __lt__ 0 (OPreset 1) st_red_blue = (Ok b, st_red_blue).
Proof.
  split; [reflexivity |]. split; [reflexivity |].
  apply (lt_returns st_red_blue 0 1 _ _ eq_refl eq_refl).
  intros axis Hax. apply axes_cases in Hax.
  destruct Hax as [-> | [-> | ->]];
    [right; exact I | left; reflexivity | left; reflexivity].
Defined.

(** X5 at the same two presets: ['red' < 'blue'] is false, so the converse
    is true. *)
Lemma lt_converse_witness :
  __lt__ 0 (OPreset 1) st_red_blue = (Ok false, st_red_blue) /\
  __lt__ 1 (OPreset 0) st_red_blue = (Ok true, st_red_blue).
Proof.
  split; [reflexivity |].
  destruct (lt_converse st_red_blue 0 1 _ _ false eq_refl eq_refl eq_refl)
    as (b' & Hrun & _ & Hneg).
  rewrite Hrun. rewrite Hneg; [reflexivity | discriminate].
Defined.

(** X6 at [Preset(fore='red') <= 'red']. *)
Lemma derived_not_a_Preset_witness :
  isinstance_Preset (OValue (VStr "red")) = false /\
  __le__ 0 (OValue (VStr "red")) st_red_blue = (Raise TypeError, st_red_blue).
Proof.
  split; [reflexivity |].
  apply (derived_not_a_Preset st_red_blue 0 (OValue (VStr "red")) eq_refl).
Defined.

(** X7 at [Preset(fore='red')] and [Preset(fore='blue')]. *)
Lemma trichotomy_witness :
  __lt__ 0 (OPreset 1) st_red_blue = (Ok false, st_red_blue) /\
  __le__ 0 (OPreset 1) st_red_blue = (Ok false, st_red_blue) /\
  __ge__ 0 (OPreset 1) st_red_blue = (Ok true, st_red_blue).
Proof.
  split; [reflexivity |].
  destruct (trichotomy st_red_blue 0 1 _ _ false eq_refl eq_refl eq_refl)
    as (eq & gt & Heq & _ & Hle & Hge & _).
  split; [| exact Hge]. rewrite Hle.
  assert (eq = false) as -> by (injection Heq as <-; reflexivity).
  reflexivity.
Defined.

(** X8 at the same two presets. *)
Lemma gt_is_flipped_lt_witness :
  __lt__ 0 (OPreset 1) st_red_blue = (Ok false, st_red_blue) /\
  __gt__ 0 (OPreset 1) st_red_blue = __lt__ 1 (OPreset 0) st_red_blue.
Proof.
  split; [reflexivity |].
  apply (gt_is_flipped_lt st_red_blue 0 1 _ _ false eq_refl eq_refl eq_refl).
Defined.

(** X9 at [Preset('red', style='bold')]. *)
Lemma as_dict_roundtrip_witness :
  heap st_warn !! 0 = Some (mkPreset (VStr "red") VNone (VStr "bold")) /\
  exists d r st',
    as_dict 0 st_warn = (Ok d, st_warn) /\
    Preset_kwargs d st_warn = (Ok r, st') /\
    heap st' !! r = Some (mkPreset (VStr "red") VNone (VStr "bold")).
Proof.
  split; [reflexivity |].
  destruct (as_dict_roundtrip st_warn 0 _ eq_refl)
    as (d & r & st' & Hdict & Hnew & _ & Hcopy & _).
  exists d, r, st'. split; [exact Hdict |]. split; [exact Hnew | exact Hcopy].
Defined.

(** X10 at the dictionary with the one entry ['fore': 'red']. *)
Lemma kwargs_roundtrip_witness :
  exists r st',
    Preset_kwargs {[ "fore" := VStr "red" ]} st0 = (Ok r, st') /\
    as_dict r st' = (Ok {[ "fore" := VStr "red" ]}, st').
Proof.
  apply (kwargs_roundtrip st0 {[ "fore" := VStr "red" ]}).
  - rewrite dom_singleton_L. intros k Hk.
    apply elem_of_singleton in Hk as ->.
    apply elem_of_union_l, elem_of_union_l, elem_of_singleton. reflexivity.
  - intros k. destruct (decide (k = "fore")) as [-> | Hne].
    + rewrite lookup_singleton_eq. discriminate.
    + rewrite lookup_singleton_ne by (intros Heq; apply Hne; symmetry; exact Heq).
      discriminate.
Defined.

(** X11 at [Preset('red', style='bold')]: no entry for ['back']. *)
Lemma as_dict_keys_witness :
  heap st_warn !! 0 = Some (mkPreset (VStr "red") VNone (VStr "bold")) /\
  exists d,
    as_dict 0 st_warn = (Ok d, st_warn) /\
    d !! "fore" = Some (VStr "red") /\ d <> ∅.
Proof.
  split; [reflexivity |].
  destruct (as_dict_keys st_warn 0 _ eq_refl) as (d & Hdict & Hkeys & Hempty).
  exists d. split; [exact Hdict |]. split.
  - apply Hkeys. split; [| reflexivity].
    apply list_elem_of_here.
  - intros Hd. apply Hempty in Hd. discriminate Hd.
Defined.

(** X12 at two instances of [Preset('red', None, 'bold')]. *)
Lemma as_dict_injective_witness :
  heap st_twins !! 0 = Some (mkPreset (VStr "red") VNone (VStr "bold")) /\
  heap st_twins !! 1 = Some (mkPreset (VStr "red") VNone (VStr "bold")) /\
  exists d d',
    as_dict 0 st_twins = (Ok d, st_twins) /\
    as_dict 1 st_twins = (Ok d', st_twins) /\ d = d'.
Proof.
  split; [reflexivity |]. split; [reflexivity |].
  destruct (as_dict_injective st_twins 0 1 _ _ eq_refl eq_refl)
    as (d & d' & Hd & Hd' & Hiff).
  exists d, d'. split; [exact Hd |]. split; [exact Hd' |].
  apply Hiff. reflexivity.
Defined.

(** X13 at [Preset('red', style='bold')] and [Preset()]. *)
Lemma merge_identity_witness :
  heap st_blank !! 0 = Some (mkPreset (VStr "red") VNone (VStr "bold")) /\
  heap st_blank !! 1 = Some empty_Preset /\
  exists r st',
    merge 0 1 VNone VNone VNone st_blank = (Ok r, st') /\
    heap st_blank !! r = None /\
    heap st' !! r = Some (mkPreset (VStr "red") VNone (VStr "bold")).
Proof.
  split; [reflexivity |]. split; [reflexivity |].
  destruct (merge_identity st_blank 0 1 _ eq_refl eq_refl)
    as (r & st' & _ & _ & Hrun & Hfresh & Hnew & _).
  exists r, st'. split; [exact Hrun |]. split; [exact Hfresh | exact Hnew].
Defined.


(** X15 at [Preset(fore='red')], [Preset(back='white')] and
    [Preset('blue', style='bold')]. *)
Lemma merge_associative_witness :
  heap st_three !! 0 = Some (mkPreset (VStr "red") VNone VNone) /\
  heap st_three !! 1 = Some (mkPreset VNone (VStr "white") VNone) /\
  heap st_three !! 2 = Some (mkPreset (VStr "blue") VNone (VStr "bold")) /\
  exists r st' r' st'' merged,
    (ab <- merge 0 1 VNone VNone VNone ;;
     merge ab 2 VNone VNone VNone) st_three = (Ok r, st') /\
    (bc <- merge 1 2 VNone VNone VNone ;;
     merge 0 bc VNone VNone VNone) st_three = (Ok r', st'') /\
    heap st' !! r = Some merged /\
    heap st'' !! r' = Some merged.
Proof.
  split; [reflexivity |]. split; [reflexivity |]. split; [reflexivity |].
  apply (merge_associative st_three 0 1 2 _ _ _ eq_refl eq_refl eq_refl).
Defined.

(** X16 at [Preset('red', style='bold').merge(Preset(back='white'),
    style='underline')]. *)
Lemma merge_explicit_as_preset_witness :
  heap st_warn !! 0 = Some (mkPreset (VStr "red") VNone (VStr "bold")) /\
  heap st_warn !! 1 = Some (mkPreset VNone (VStr "white") VNone) /\
  exists r st' r' st'' merged,
    merge 0 1 VNone VNone (VStr "underline") st_warn = (Ok r, st') /\
    (ab <- merge 0 1 VNone VNone VNone ;;
     top <- __init__ VNone VNone (VStr "underline") ;;
     merge ab top VNone VNone VNone) st_warn = (Ok r', st'') /\
    heap st' !! r = Some merged /\
    heap st'' !! r' = Some merged.
Proof.
  split; [reflexivity |]. split; [reflexivity |].
  apply (merge_explicit_as_preset st_warn 0 1 _ _ VNone VNone (VStr "underline")
           eq_refl eq_refl).
Defined.

(** X17 at the same merge, called on ['x']. *)
Lemma call_of_merge_witness :
  heap st_warn !! 0 = Some (mkPreset (VStr "red") VNone (VStr "bold")) /\
  heap st_warn !! 1 = Some (mkPreset VNone (VStr "white") VNone) /\
  exists r st' out ev,
    merge 0 1 VNone VNone (VStr "underline") st_warn = (Ok r, st') /\
    __call__ sample_Colr r (VStr "x") VNone VNone VNone st' =
      (out, logged st' [ev]) /\
    __call__ sample_Colr 0 (VStr "x") VNone (VStr "white") (VStr "underline")
             st_warn = (out, logged st_warn [ev]).
Proof.
  split; [reflexivity |]. split; [reflexivity |].
  apply (call_of_merge string sample_Colr st_warn 0 1 _ _ (VStr "x")
           VNone VNone (VStr "underline") eq_refl eq_refl).
Defined.

(** X18 at [Preset('red', style='bold').code('fore')]. *)
Lemma code_frame_witness :
  heap st_warn !! 0 = Some (mkPreset (VStr "red") VNone (VStr "bold")) /\
  code sample_codes sample_Colr sample_str 0 (VStr "fore") VNone st_warn =
    (Ok (VStr (esc "31")),
     logged st_warn [CodesGet (VStr "fore") (VStr "red")]) /\
  heap (logged st_warn [CodesGet (VStr "fore") (VStr "red")]) = heap st_warn.
Proof.
  split; [reflexivity |]. split; [reflexivity |].
  apply (code_frame sample_codes string sample_Colr sample_str st_warn 0 _
           (VStr "fore") VNone _ _ eq_refl eq_refl).
Defined.

(** X19 at [Preset('red', 'nope', 'bold').codes()], which raises. *)
Lemma codes_frame_witness :
  heap st_nope !! 0 =
    Some (mkPreset (VStr "red") (VStr "nope") (VStr "bold")) /\
  exists st',
    codes sample_codes sample_Colr sample_str 0 st_nope =
      (Raise (InvalidColr (VStr "nope")), st') /\
    heap st' = heap st_nope.
Proof.
  split; [reflexivity |]. eexists. split; [reflexivity |].
  apply (codes_frame sample_codes string sample_Colr sample_str st_nope 0 _
           _ _ eq_refl eq_refl).
Defined.

(** X20 at [Preset('red', style='bold').codes()]. *)
Lemma codes_fast_path_witness :
  heap st_warn !! 0 = Some (mkPreset (VStr "red") VNone (VStr "bold")) /\
  codes sample_codes sample_Colr sample_str 0 st_warn =
    (Ok (esc "31" ++ esc "1"),
     logged st_warn [CodesGet (VStr "fore") (VStr "red");
                     CodesGet (VStr "style") (VStr "bold")]).
Proof.
  split; [reflexivity |].
  rewrite (codes_fast_path sample_codes string sample_Colr sample_str
             st_warn 0 _ eq_refl).
  - reflexivity.
  - intros axis Hin.
    change (axis ∈ ["fore"; "style"]) in Hin.
    apply elem_of_cons in Hin as [-> | Hin];
      [eexists; split; [reflexivity | discriminate] |].
    apply elem_of_cons in Hin as [-> | Hin];
      [eexists; split; [reflexivity | discriminate] |].
    exfalso. exact (proj1 (elem_of_nil _) Hin).
Defined.

(** X21 at [Preset('red', 'nope', 'bold').codes()]: the background is
    rejected and the style is never looked up. *)
Lemma codes_first_error_witness :
  set_axes (mkPreset (VStr "red") (VStr "nope") (VStr "bold")) =
    (["fore"] ++ "back" :: ["style"])%list /\
  invalid sample_codes sample_Colr sample_str
    (mkPreset (VStr "red") (VStr "nope") (VStr "bold")) "back"
    (InvalidColr (VStr "nope")) /\
  codes sample_codes sample_Colr sample_str 0 st_nope =
    (Raise (InvalidColr (VStr "nope")),
     logged st_nope [CodesGet (VStr "fore") (VStr "red");
                     CodesGet (VStr "back") (VStr "nope");
                     ColrNew VNone VNone (VStr "nope") VNone]).
Proof.
  assert (invalid sample_codes sample_Colr sample_str
            (mkPreset (VStr "red") (VStr "nope") (VStr "bold")) "back"
            (InvalidColr (VStr "nope"))) as Hinv.
  { split; [apply axes_back |]. split; [discriminate |].
    split; [left; reflexivity | reflexivity]. }
  split; [reflexivity |]. split; [exact Hinv |].
  apply (codes_first_error sample_codes string sample_Colr sample_str
           st_nope 0 _ ["fore"] "back" ["style"] _ eq_refl eq_refl).
  - intros a e' Hin (_ & _ & Hmiss & _).
    apply list_elem_of_singleton in Hin as ->.
    destruct Hmiss as [Hmiss | Hmiss]; discriminate Hmiss.
  - exact Hinv.
Defined.

(** X22 at [Preset('red', 'nope', 'bold').code('back')]. *)
Lemma code_raises_only_witness :
  heap st_nope !! 0 =
    Some (mkPreset (VStr "red") (VStr "nope") (VStr "bold")) /\
  (exists st',
     code sample_codes sample_Colr sample_str 0 (VStr "back") VNone st_nope =
       (Raise (InvalidColr (VStr "nope")), st')) /\
  ((VStr "back" ∉ codetypes) \/
   exists axis,
     VStr "back" = VStr axis /\
     invalid sample_codes sample_Colr sample_str
       (mkPreset (VStr "red") (VStr "nope") (VStr "bold")) axis
       (InvalidColr (VStr "nope"))).
Proof.
  split; [reflexivity |]. split; [eexists; reflexivity |].
  destruct (code_raises_only sample_codes string sample_Colr sample_str
              st_nope 0 _ (VStr "back") VNone _ _ eq_refl eq_refl)
    as [(Hout & _) | Hinv].
  - left. exact Hout.
  - right. exact Hinv.
Defined.

(** X23 at [Preset('red', 'nope', 'bold').codes()]. *)
Lemma codes_raises_only_witness :
  heap st_nope !! 0 =
    Some (mkPreset (VStr "red") (VStr "nope") (VStr "bold")) /\
  exists axis,
    axis ∈ set_axes (mkPreset (VStr "red") (VStr "nope") (VStr "bold")) /\
    invalid sample_codes sample_Colr sample_str
      (mkPreset (VStr "red") (VStr "nope") (VStr "bold")) axis
      (InvalidColr (VStr "nope")).
Proof.
  split; [reflexivity |].
  destruct (codes_raises_only sample_codes string sample_Colr sample_str
              st_nope 0 _ eq_refl) as (Honly & _).
  apply (Honly (InvalidColr (VStr "nope"))
           (logged st_nope [CodesGet (VStr "fore") (VStr "red");
                            CodesGet (VStr "back") (VStr "nope");
                            ColrNew VNone VNone (VStr "nope") VNone])).
  reflexivity.
Defined.
